(** * haufe.requestmonitoring: fine resolution request logging

    A shallow embedding of [haufe/requestmonitoring/timelogging.py] and the
    properties of its request-timing table, its record format and its
    publication-event handlers.

    Python values are modelled as the program has them: request ids and
    statuses are integers ([Z]), clock readings are binary64 floats (Rocq's
    primitive [float], the same IEEE 754 arithmetic as Python's [float]),
    text is [string] (one character per code point below 256), the module
    global [_state] is a finite map from request ids to start times, and a
    response's instance dictionary is a finite map from attribute names to
    values.  Module globals, the response objects and everything the module
    sends to its collaborators live in an explicit [world] that every
    function threads through, and exceptions are an outcome beside the normal
    return, so that what an aborted call leaves behind stays visible. *)

From Stdlib Require Import ZArith Floats String Ascii List Lia Bool.
From stdpp Require Import gmap strings list.

Local Open Scope string_scope.
Local Open Scope Z_scope.

(* Text is built by computation here: let [simpl] unfold concatenation. *)
#[local] Arguments String.append !s1 s2 : simpl nomatch.

(** ** Python values and exceptions *)

Inductive pyval :=
| VNone
| VInt (z : Z)
| VFloat (f : float)
| VStr (s : string)
| VRef (l : positive).
(* [VRef l] is a reference to some other mutable object (a header
   dictionary, a stream); its contents are not tracked, only its identity. *)

Inductive exn :=
| KeyError (key : pyval)
| AssertionError
| AttributeError (msg : string)
| TypeError (msg : string)
| ValueError (msg : string)
| OverflowError (msg : string)
| RuntimeError (msg : string).

(** A pure computation that may raise. *)
Inductive result (A : Type) :=
| Ok (a : A)
| Err (e : exn).
Arguments Ok {A} a.
Arguments Err {A} e.

Definition rbind {A B} (r : result A) (k : A -> result B) : result B :=
  match r with
  | Ok a => k a
  | Err e => Err e
  end.

(** Truth value of an integer: [if status:], [status and x or y], [assert status]. *)
Definition truthy (z : Z) : bool := negb (z =? 0).

(** ** Text: decimal numerals, justification, whitespace *)

Module PyStr.

Definition digit (n : Z) : ascii := ascii_of_nat (48 + Z.to_nat (n mod 10)).

(** Decimal digits of a natural number, most significant first; [fuel]
    bounds the number of digits. *)
Fixpoint dec_go (fuel : nat) (n : Z) (acc : string) : string :=
  let acc' := String (digit n) acc in
  match fuel with
  | O => acc'
  | S fuel' => if n / 10 =? 0 then acc' else dec_go fuel' (n / 10) acc'
  end.

Definition dec (n : Z) : string := dec_go (Z.to_nat (Z.log2 n)) n "".

(** [str(z)] for an integer. *)
Definition str_int (z : Z) : string :=
  if z <? 0 then String "-" (dec (- z)) else dec z.

(** Reading a numeral back: [int(s)] for a text of digits with an optional
    minus sign. *)
Definition digit_value (c : ascii) : Z := Z.of_nat (nat_of_ascii c) - 48.

Fixpoint parse_digits (s : string) (v : Z) : Z :=
  match s with
  | "" => v
  | String c s' => parse_digits s' (10 * v + digit_value c)
  end.

Definition int_of_str (s : string) : Z :=
  match s with
  | String "-" r => - parse_digits r 0
  | _ => parse_digits s 0
  end.

Fixpoint spaces (n : nat) : string :=
  match n with
  | O => ""
  | S n' => String " " (spaces n')
  end.

Fixpoint zeros (n : nat) : string :=
  match n with
  | O => ""
  | S n' => String "0" (zeros n')
  end.

(** Right-justify in a field of [w] characters; a longer text is kept whole. *)
Definition rjust (w : nat) (s : string) : string :=
  spaces (w - String.length s) ++ s.

(** Left-pad a numeral with zeros to at least [p] digits. *)
Definition zfill (p : nat) (s : string) : string :=
  zeros (p - String.length s) ++ s.

Fixpoint take (n : nat) (s : string) : string :=
  match n, s with
  | S n', String c s' => String c (take n' s')
  | _, _ => ""
  end.

(** [str.isspace] on one code point below 256 (Python 3: the ASCII
    controls 9-13 and 28-31, space, U+0085 and U+00A0). *)
Definition isspace (c : ascii) : bool :=
  let n := Z.of_nat (nat_of_ascii c) in
  ((9 <=? n) && (n <=? 13)) || ((28 <=? n) && (n <=? 32))
  || (n =? 133) || (n =? 160).

Fixpoint lstrip (s : string) : string :=
  match s with
  | "" => ""
  | String c s' => if isspace c then lstrip s' else s
  end.

Fixpoint rstrip (s : string) : string :=
  match s with
  | "" => ""
  | String c s' =>
      match rstrip s' with
      | "" => if isspace c then "" else String c ""
      | r => String c r
      end
  end.

(** [s.strip()] *)
Definition strip (s : string) : string := rstrip (lstrip s).

Fixpoint all_space (s : string) : bool :=
  match s with
  | "" => true
  | String c s' => isspace c && all_space s'
  end.

Definition first_char (s : string) : option ascii :=
  match s with
  | "" => None
  | String c _ => Some c
  end.

Fixpoint last_char (s : string) : option ascii :=
  match s with
  | "" => None
  | String c "" => Some c
  | String _ s' => last_char s'
  end.

End PyStr.

(** ** Fixed-point rendering of a binary64 value *)

Module PyFloat.
Import PyStr.

(** [num / den] rounded to the nearest integer, ties to even. *)
Definition round_half_even (num den : Z) : Z :=
  let q := num / den in
  let r := num mod den in
  if 2 * r <? den then q
  else if den <? 2 * r then q + 1
  else if Z.even q then q else q + 1.

(** [|x| * 10^p] rounded to an integer, for [|x| = m * 2^e]. *)
Definition scaled (m : positive) (e : Z) (p : nat) : Z :=
  let p10 := 10 ^ Z.of_nat p in
  if 0 <=? e then Z.pos m * 2 ^ e * p10
  else round_half_even (Z.pos m * p10) (2 ^ (- e)).

(** The digits of [n / 10^p] with [p] decimals. *)
Definition fixed_digits (n : Z) (p : nat) : string :=
  let p10 := 10 ^ Z.of_nat p in
  dec (n / p10) ++
  match p with
  | O => ""
  | _ => String "." (zfill p (dec (n mod p10)))
  end.

Definition sign_str (s : bool) : string := if s then "-" else "".

(** The conversion [%.pf] of a float given by its IEEE decomposition. *)
Definition fixed_SF (x : spec_float) (p : nat) : string :=
  match x with
  | S754_nan => "nan"
  | S754_infinity s => sign_str s ++ "inf"
  | S754_zero s => sign_str s ++ fixed_digits 0 p
  | S754_finite s m e => sign_str s ++ fixed_digits (scaled m e p) p
  end.

Definition fixed (f : float) (p : nat) : string := fixed_SF (Prim2SF f) p.

(** [float(z)]: the nearest binary64 value, ties to even. *)
Definition SF_of_int (z : Z) : spec_float := binary_normalize prec emax z 0 false.

(** [int(f)] as [%d] needs it: truncation towards zero. *)
Definition trunc_SF (x : spec_float) : result Z :=
  match x with
  | S754_nan => Err (ValueError "cannot convert float NaN to integer")
  | S754_infinity _ => Err (OverflowError "cannot convert float infinity to integer")
  | S754_zero _ => Ok 0
  | S754_finite s m e =>
      let a := if 0 <=? e then Z.pos m * 2 ^ e else Z.pos m / 2 ^ (- e) in
      Ok (if s then - a else a)
  end.

End PyFloat.

(** ** The string formatting operator [fmt % args]

    The part of printf-style formatting that [_log_format] needs: literal
    text and conversions [%[width][.precision]conv] with [conv] one of
    [s d f c %].  Flags, [*] widths, mapping keys and the other conversions
    are reported as unsupported. *)

Module PyFormat.
Import PyStr PyFloat.

(** One item of a parsed format: a literal character or a conversion
    [%[width][.precision]conv]. *)
Inductive directive :=
| DLit (c : ascii)
| DConv (width : nat) (prec : option nat) (conv : ascii).

Inductive pstate :=
| PText
| PWidth (w : nat)
| PPrec (w : nat) (p : nat).

Definition digit_val (c : ascii) : option nat :=
  let n := nat_of_ascii c in
  if ((48 <=? n) && (n <=? 57))%nat then Some (n - 48)%nat else None.

Definition is_conv (c : ascii) : bool :=
  match c with
  | "s"%char | "d"%char | "f"%char | "c"%char | "%"%char => true
  | _ => false
  end.

Fixpoint parse (st : pstate) (fmt : string) : result (list directive) :=
  match fmt with
  | "" =>
      match st with
      | PText => Ok []
      | _ => Err (ValueError "incomplete format")
      end
  | String c rest =>
      let conv w p :=
        if is_conv c
        then rbind (parse PText rest) (fun ds => Ok (DConv w p c :: ds))
        else Err (ValueError "unsupported format character") in
      match st with
      | PText =>
          if Ascii.eqb c "%" then parse (PWidth 0) rest
          else rbind (parse PText rest) (fun ds => Ok (DLit c :: ds))
      | PWidth w =>
          match digit_val c with
          | Some d => parse (PWidth (10 * w + d)) rest
          | None => if Ascii.eqb c "." then parse (PPrec w 0) rest else conv w None
          end
      | PPrec w p =>
          match digit_val c with
          | Some d => parse (PPrec w (10 * p + d)) rest
          | None => conv w (Some p)
          end
      end
  end.

(** [%s] *)
Definition conv_s (prec : option nat) (v : pyval) : result string :=
  let cut s := match prec with Some p => take p s | None => s end in
  match v with
  | VStr s => Ok (cut s)
  | VInt z => Ok (cut (str_int z))
  | VNone => Ok (cut "None")
  | VFloat _ | VRef _ => Err (TypeError "%s: repr of this value is not modelled")
  end.

(** [%d] *)
Definition conv_d (prec : option nat) (v : pyval) : result string :=
  let num z :=
    let ds := match prec with Some p => zfill p (dec (Z.abs z)) | None => dec (Z.abs z) end in
    if z <? 0 then String "-" ds else ds in
  match v with
  | VInt z => Ok (num z)
  | VFloat f => rbind (trunc_SF (Prim2SF f)) (fun z => Ok (num z))
  | _ => Err (TypeError "%d format: a real number is required")
  end.

(** [%f]; the default precision is 6. *)
Definition conv_f (prec : option nat) (v : pyval) : result string :=
  let p := match prec with Some p => p | None => 6%nat end in
  match v with
  | VFloat f => Ok (fixed f p)
  | VInt z =>
      match SF_of_int z with
      | S754_infinity _ => Err (OverflowError "int too large to convert to float")
      | x => Ok (fixed_SF x p)
      end
  | _ => Err (TypeError "must be real number")
  end.

(** [%c]: a text of one character, or the character of a code point.
    Texts here hold code points below 256; a code point from 256 up to
    0x10ffff, which Python renders, is outside the texts of this model and
    is reported as unsupported.  [_log] passes a text. *)
Definition conv_c (v : pyval) : result string :=
  match v with
  | VStr (String c "") => Ok (String c "")
  | VInt z =>
      if (z <? 0) || (1114112 <=? z) then Err (OverflowError "%c arg not in range(0x110000)")
      else if z <? 256 then Ok (String (ascii_of_nat (Z.to_nat z)) "")
      else Err (ValueError "unsupported code point")
  | _ => Err (TypeError "%c requires int or char")
  end.

Definition convert (w : nat) (p : option nat) (c : ascii) (v : pyval) : result string :=
  rbind
    (match c with
     | "s"%char => conv_s p v
     | "d"%char => conv_d p v
     | "f"%char => conv_f p v
     | "c"%char => conv_c v
     | _ => Err (ValueError "unsupported format character")
     end)
    (fun s => Ok (rjust w s)).

Fixpoint render (ds : list directive) (args : list pyval) : result string :=
  match ds with
  | [] =>
      match args with
      | [] => Ok ""
      | _ => Err (TypeError "not all arguments converted during string formatting")
      end
  | DLit c :: ds' => rbind (render ds' args) (fun s => Ok (String c s))
  | DConv w p c :: ds' =>
      if Ascii.eqb c "%" then rbind (render ds' args) (fun s => Ok (String "%" s))
      else
        match args with
        | [] => Err (TypeError "not enough arguments for format string")
        | v :: args' =>
            rbind (convert w p c v) (fun field =>
            rbind (render ds' args') (fun s => Ok (field ++ s)))
        end
  end.

(** [fmt % args], for a tuple [args]. *)
Definition format (fmt : string) (args : list pyval) : result string :=
  rbind (parse PText fmt) (fun ds => render ds args).

End PyFormat.


(** ** The clock: [time.time] and [time.strftime] *)

Module Clock.
Import PyStr.

(** The broken-down local time [strftime] formats. *)
Record struct_time := {
  tm_year : Z; tm_mon : Z; tm_mday : Z;
  tm_hour : Z; tm_min : Z; tm_sec : Z
}.

Definition two_digits (n : Z) : string :=
  String (digit (n / 10)) (String (digit n) "").

(** The directives the program's time format uses. *)
Definition field (c : ascii) (t : struct_time) : option string :=
  match c with
  | "y"%char => Some (two_digits (tm_year t mod 100))
  | "m"%char => Some (two_digits (tm_mon t))
  | "d"%char => Some (two_digits (tm_mday t))
  | "H"%char => Some (two_digits (tm_hour t))
  | "M"%char => Some (two_digits (tm_min t))
  | "S"%char => Some (two_digits (tm_sec t))
  | "%"%char => Some "%"
  | _ => None
  end.

(** [strftime(fmt, t)]; [pct] says that the previous character was [%].  A
    directive outside [field] is copied as it stands. *)
Fixpoint strftime_go (pct : bool) (fmt : string) (t : struct_time) : string :=
  match fmt with
  | "" => if pct then "%" else ""
  | String c rest =>
      if pct then
        match field c t with
        | Some s => s
        | None => String "%" (String c "")
        end ++ strftime_go false rest t
      else if Ascii.eqb c "%" then strftime_go true rest t
      else String c (strftime_go false rest t)
  end.

Definition strftime (fmt : string) (t : struct_time) : string :=
  strftime_go false fmt t.

(** What the clock answers during one event: [time()] and the local time
    that [strftime(fmt)] formats. *)
Record reading := { time : float; localtime : struct_time }.

End Clock.

(** ** Collaborators *)

(** The three publication subscribers [provideHandler] can be given. *)
Inductive subscriber := Sub_start | Sub_success | Sub_failure.

(** Modelled from the spec: the class [Rotator] of module [Rotator], which is
    not among the sources.  The spec gives the sink one operation,
    [write(line)], on an append-only destination that rotates by date and
    locks across processes on its own; an instance is the file base and the
    lock flag it was built with, and a write is recorded in order in the
    world's [trace]. *)
Record Rotator := { rot_base : string; rot_lock : bool }.

(** What the module does to the outside, in the order it does it. *)
Inductive effect :=
| RotatorWrite (r : Rotator) (line : string)
| LoggerInfo (msg : string)
| ProvideHandler (h : subscriber).

(** The values the global [_logfile] takes (besides [None]): the string
    [STDERR] or a [Rotator]. *)
Inductive logfile :=
| LFStr (s : string)
| LFRotator (r : Rotator).

(** The instance dictionary [obj.__dict__] of a response. *)
Abbreviation rdict := (gmap string pyval).

(** The response's class and the optional [IStatus] adapter, which belong
    to the host framework: [setStatus] and [getStatus] act on the instance
    dictionary; [IStatus d] is [Ok None] when no adapter is registered
    ([IStatus(response, None)] is [None]), [Ok (Some n)] when [int] of the
    adapter is [n], and [Err e] when adapting or converting raises. *)
Class ResponseClass (exc : Type) := {
  setStatus : exc -> rdict -> rdict;
  getStatus : rdict -> Z;
  IStatus : rdict -> result (option Z)
}.

(** A request as the handlers see it: the id of its [ITicket] adapter, the
    text of its [IInfo] adapter and the identity of its response object. *)
Record request := {
  ITicket_id : Z;
  IInfo_str : string;
  response : positive
}.

(** Publication events; only a failure event has [exc_info] and [retry]. *)
Inductive event (exc : Type) :=
| IPubStart (r : request)
| IPubSuccess (r : request)
| IPubFailure (r : request) (exc_type : exc) (retry : bool).
Arguments IPubStart {exc} r.
Arguments IPubSuccess {exc} r.
Arguments IPubFailure {exc} r exc_type retry.

Definition event_request {exc} (ev : event exc) : request :=
  match ev with
  | IPubStart r | IPubSuccess r | IPubFailure r _ _ => r
  end.

(** ** The world and the monad of module code *)

Record world := {
  _state : gmap Z float;        (* the module global [_state] *)
  _logfile : option logfile;    (* the module global [_logfile] *)
  _lock : bool;                 (* [_lock.locked()] *)
  heap : gmap positive rdict;   (* response objects, by identity *)
  clock : Clock.reading;
  trace : list effect
}.

Definition with_state (f : gmap Z float -> gmap Z float) (w : world) : world :=
  {| _state := f (_state w); _logfile := _logfile w; _lock := _lock w;
     heap := heap w; clock := clock w; trace := trace w |}.

Definition with_logfile (l : option logfile) (w : world) : world :=
  {| _state := _state w; _logfile := l; _lock := _lock w;
     heap := heap w; clock := clock w; trace := trace w |}.

Definition with_lock (b : bool) (w : world) : world :=
  {| _state := _state w; _logfile := _logfile w; _lock := b;
     heap := heap w; clock := clock w; trace := trace w |}.

Definition with_heap (f : gmap positive rdict -> gmap positive rdict) (w : world) : world :=
  {| _state := _state w; _logfile := _logfile w; _lock := _lock w;
     heap := f (heap w); clock := clock w; trace := trace w |}.

Definition with_clock (c : Clock.reading) (w : world) : world :=
  {| _state := _state w; _logfile := _logfile w; _lock := _lock w;
     heap := heap w; clock := c; trace := trace w |}.

Definition emit (e : effect) (w : world) : world :=
  {| _state := _state w; _logfile := _logfile w; _lock := _lock w;
     heap := heap w; clock := clock w; trace := trace w ++ [e] |}.

(** How a call ends: it returns, it raises, or it never comes back
    (waiting for a lock nobody releases). *)
Inductive outcome (A : Type) :=
| Return (a : A)
| Raise (e : exn)
| Blocked.
Arguments Return {A} a.
Arguments Raise {A} e.
Arguments Blocked {A}.

Definition M (A : Type) : Type := world -> outcome A * world.

Definition ret {A} (a : A) : M A := fun w => (Return a, w).

Definition bind {A B} (m : M A) (k : A -> M B) : M B :=
  fun w =>
    match m w with
    | (Return a, w') => k a w'
    | (Raise e, w') => (Raise e, w')
    | (Blocked, w') => (Blocked, w')
    end.

Notation "'do' x <- m ; k" := (bind m (fun x => k))
  (at level 10, x name, m at level 100, k at level 200).
Notation "'run' m ; k" := (bind m (fun _ => k))
  (at level 10, m at level 100, k at level 200).

Definition raise {A} (e : exn) : M A := fun w => (Raise e, w).

Definition lift {A} (r : result A) : M A :=
  match r with
  | Ok a => ret a
  | Err e => raise e
  end.

Definition gets {A} (f : world -> A) : M A := fun w => (Return (f w), w).

Definition modify (f : world -> world) : M unit := fun w => (Return tt, f w).

(** [try: body finally: fin] *)
Definition try_finally {A} (body : M A) (fin : M unit) : M A :=
  fun w =>
    match body w with
    | (Blocked, w') => (Blocked, w')
    | (r, w') =>
        match fin w' with
        | (Return _, w'') => (r, w'')
        | (Raise e, w'') => (Raise e, w'')
        | (Blocked, w'') => (Blocked, w'')
        end
    end.

(** [assert cond] *)
Definition assert_ (cond : bool) : M unit :=
  if cond then ret tt else raise AssertionError.

(** [threading.Lock]: [acquire] waits while the lock is held. *)
Definition lock_acquire : M unit :=
  fun w => if _lock w then (Blocked, w) else (Return tt, with_lock true w).

Definition lock_release : M unit :=
  fun w =>
    if _lock w then (Return tt, with_lock false w)
    else (Raise (RuntimeError "release unlocked lock"), w).

(** ** The module [timelogging] *)

Definition _log_format : string :=
  "%s %3d %10.4f %c %6d %s" ++ String (ascii_of_nat 10) "".
Definition _log_time_format : string := "%y%m%dT%H%M%S".
Definition STDERR : string := "/dev/stderr".

(** [strftime(fmt)]: the current local time, formatted. *)
Definition strftime (fmt : string) : M string :=
  gets (fun w => Clock.strftime fmt (Clock.localtime (clock w))).

(** [time()] *)
Definition time : M float := gets (fun w => Clock.time (clock w)).

(** [_LOGGER.info(msg)] *)
Definition _LOGGER_info (msg : string) : M unit := modify (emit (LoggerInfo msg)).

(** [_logfile == STDERR]: a [Rotator] is never equal to a string. *)
Definition logfile_is_STDERR (l : logfile) : bool :=
  match l with
  | LFStr s => String.eqb s STDERR
  | LFRotator _ => false
  end.

(** [_logfile.write(string)]: a string has no [write]. *)
Definition logfile_write (l : logfile) (line : string) : M unit :=
  match l with
  | LFRotator r => modify (emit (RotatorWrite r line))
  | LFStr _ => raise (AttributeError "'str' object has no attribute 'write'")
  end.

(** The text [_log] builds from its arguments and the formatted time. *)
Definition log_string (ts : string) (type : string) (status request_id : Z)
    (request_time : pyval) (info : string) : result string :=
  PyFormat.format _log_format
    [VStr ts; VInt status; request_time; VStr type; VInt request_id; VStr info].

(** [def _log(type, status=0, request_id=0, request_time=0, info='')] *)
Definition _log (type : string) (status request_id : Z) (request_time : pyval)
    (info : string) : M unit :=
  do ts <- strftime _log_time_format;
  do string <- lift (log_string ts type status request_id request_time info);
  do lf <- gets _logfile;
  match lf with
  | None => ret tt
  | Some l =>
      if logfile_is_STDERR l then _LOGGER_info (PyStr.strip string)
      else logfile_write l string
  end.

(** [_state[id]] *)
Definition state_getitem (id : Z) : M float :=
  do st <- gets _state;
  match st !! id with
  | Some t => ret t
  | None => raise (KeyError (VInt id))
  end.

(** [del _state[id]] *)
Definition state_delitem (id : Z) : M unit :=
  do st <- gets _state;
  match st !! id with
  | Some _ => modify (with_state (delete id))
  | None => raise (KeyError (VInt id))
  end.

(** [_state[id] = ct] *)
Definition state_setitem (id : Z) (ct : float) : M unit :=
  modify (with_state (insert id ct)).

(** [def account_request(request, status=0)] *)
Definition account_request (request : request) (status : Z) : M unit :=
  let id := ITicket_id request in
  let info := IInfo_str request in
  let type := if truthy status then "-" else "+" in
  do ct <- time;
  run lock_acquire;
  do request_time <-
    try_finally
      (if truthy status then
         do t0 <- state_getitem id;
         run state_delitem id;
         ret (VFloat (ct - t0)%float)
       else
         run state_setitem id ct;
         ret (VInt 0))
      lock_release;
  _log type status id request_time info.

(** [provideHandler(h)] *)
Definition provideHandler (h : subscriber) : M unit := modify (emit (ProvideHandler h)).

(** [Rotator(filebase, lock=True)] *)
Definition Rotator_new (filebase : string) (lock : bool) : M Rotator :=
  ret {| rot_base := filebase; rot_lock := lock |}.

(** [config[key]] for a product-config section. *)
Definition config_getitem (config : gmap string string) (key : string) : M string :=
  match config !! key with
  | Some v => ret v
  | None => raise (KeyError (VStr key))
  end.

(** [def start_timelogging(unused)]; [product_config] is what
    [getConfiguration().product_config] holds. *)
Definition start_timelogging (product_config : gmap string (gmap string string)) : M unit :=
  match product_config !! "timelogging" with
  | None => ret tt
  | Some config =>
      do filebase <- config_getitem config "filebase";
      run (if String.eqb filebase STDERR then
             modify (with_logfile (Some (LFStr filebase)))
           else
             do r <- Rotator_new filebase true;
             modify (with_logfile (Some (LFRotator r))));
      run _log "0" 0 0 (VInt 0) "restarted";
      run provideHandler Sub_start;
      run provideHandler Sub_success;
      provideHandler Sub_failure
  end.

(** [def handle_request_start(event)] *)
Definition handle_request_start {exc} (ev : event exc) : M unit :=
  account_request (event_request ev) 0.

Section Handlers.
Context {exc : Type} {RC : ResponseClass exc}.

(** [response.__dict__] of the object [l]. *)
Definition response_dict (l : positive) : M rdict :=
  gets (fun w => default ∅ (heap w !! l)).

Definition set_response_dict (l : positive) (d : rdict) : M unit :=
  modify (with_heap (insert l d)).

(** [def handle_request_success(event)] *)
Definition handle_request_success (ev : event exc) : M unit :=
  let request := event_request ev in
  let response := response request in
  do d <- response_dict response;
  do adapted <- lift (IStatus d);
  let status :=
    match adapted with
    | None => getStatus d
    | Some n => n
    end in
  run assert_ (truthy status);
  account_request request status.

(** [def handle_request_failure(event)] *)
Definition handle_request_failure (ev : event exc) : M unit :=
  match ev with
  | IPubFailure request exc_type retry =>
      if retry then account_request request 390
      else
        let response := response request in
        do saved <- response_dict response;
        run (do d <- response_dict response;
             set_response_dict response (setStatus exc_type d));
        run handle_request_success ev;
        do d <- response_dict response;
        set_response_dict response (saved ∪ d)
  | _ => raise (AttributeError "event has no attribute 'retry'")
  end.

End Handlers.

(** ** The record layout, as the format documentation words it *)

(** [<timestamp> <status:3d> <request_time:10.4f> <kind:1c> <request_id:6d> <info>\n],
    where [request_time] is the text of the number with four decimals. *)
Definition layout (timestamp : string) (status : Z) (request_time : string)
    (kind : ascii) (request_id : Z) (info : string) : string :=
  timestamp ++ " " ++ PyStr.rjust 3 (PyStr.str_int status) ++ " "
  ++ PyStr.rjust 10 request_time ++ " " ++ String kind "" ++ " "
  ++ PyStr.rjust 6 (PyStr.str_int request_id) ++ " " ++ info
  ++ String (ascii_of_nat 10) "".

(** The text of a request time: a float, or the integer [0] of a start
    record. *)
Definition request_time_text (v : pyval) : string :=
  match v with
  | VFloat f => PyFloat.fixed f 4
  | _ => "0.0000"
  end.

(** The timestamp [yyMMddTHHmmss]. *)
Definition timestamp_of (t : Clock.struct_time) : string :=
  Clock.two_digits (Clock.tm_year t mod 100) ++ Clock.two_digits (Clock.tm_mon t)
  ++ Clock.two_digits (Clock.tm_mday t) ++ "T" ++ Clock.two_digits (Clock.tm_hour t)
  ++ Clock.two_digits (Clock.tm_min t) ++ Clock.two_digits (Clock.tm_sec t).

(** What reaches the sink for one rendered line under the configured
    [_logfile]: the stripped text to the logger, or the line to the file. *)
Definition emitted (l : logfile) (line : string) : effect :=
  match l with
  | LFRotator r => RotatorWrite r line
  | LFStr _ => LoggerInfo (PyStr.strip line)
  end.

(** The two values [start_timelogging] gives [_logfile]. *)
Definition configured (l : logfile) : Prop :=
  match l with
  | LFRotator _ => True
  | LFStr s => s = STDERR
  end.

(** The timestamp [_log] puts on a record written in world [w]. *)
Definition now_text (w : world) : string :=
  timestamp_of (Clock.localtime (clock w)).

(** The record up to the request id, before the separator and [info]. *)
Definition layout_head (timestamp : string) (status : Z) (request_time : string)
    (kind : ascii) (request_id : Z) : string :=
  timestamp ++ " " ++ PyStr.rjust 3 (PyStr.str_int status) ++ " "
  ++ PyStr.rjust 10 request_time ++ " " ++ String kind "" ++ " "
  ++ PyStr.rjust 6 (PyStr.str_int request_id).

Definition newline : string := String (ascii_of_nat 10) "".

(** The status a success event resolves, in the spec's words: the optional
    status resolver is asked first; when it has no answer the raw status of
    the response is taken. *)
Definition resolve_status {exc} {RC : ResponseClass exc} (d : rdict) : result Z :=
  rbind (IStatus d) (fun answer =>
    Ok (match answer with
        | Some n => n
        | None => getStatus d
        end)).

(** [response.__dict__] as world [w] has it. *)
Definition dict_of (w : world) (l : positive) : rdict := default ∅ (heap w !! l).

(** ** Sequences of calls *)

(** One call of [account_request] at its own clock reading. *)
Record call := {
  call_clock : Clock.reading;
  call_request : request;
  call_status : Z
}.

Definition run_call (c : call) (w : world) : world :=
  snd (account_request (call_request c) (call_status c) (with_clock (call_clock c) w)).

Definition run_calls (cs : list call) (w : world) : world :=
  fold_left (fun w c => run_call c w) cs w.

(** ** Threads calling [account_request] at the same time

    Worker threads run the handlers at the same time.  Each thread here is
    one call of [account_request]; it moves one statement at a time, and the
    scheduler picks which thread moves next.  A statement of the locked
    block (lines 87-94) is one step: the lookup, the delete and the store
    are single dictionary operations.  [acquire] can only be taken while the
    lock is free; a thread that finds it held does not move. *)

Module Threads.

(** Where a thread stands inside one call [account_request(request, status)]:
    the statement it executes next, with the locals that statement needs. *)
Inductive pc :=
| AtEntry                               (* lines 80-84: adapters and locals *)
| AtTime                                (* line 85: [ct = time()] *)
| AtAcquire (ct : float)                (* line 86: [_lock.acquire()] *)
| AtLookup (ct : float)                 (* line 89: [request_time = ct - _state[id]] *)
| AtDelete (ct request_time : float)    (* line 90: [del _state[id]] *)
| AtStore (ct : float)                  (* line 92: [_state[id] = ct] *)
| AtRelease (request_time : pyval)      (* line 94: [_lock.release()] *)
| AtReleaseRaising (e : exn)            (* line 94, an exception pending *)
| AtLog (request_time : pyval)          (* lines 95-99: [_log(...)] *)
| Returned
| Raised (e : exn).

(** The statements between [acquire] and [release], the latter included. *)
Definition critical (p : pc) : bool :=
  match p with
  | AtLookup _ | AtDelete _ _ | AtStore _ | AtRelease _ | AtReleaseRaising _ => true
  | _ => false
  end.

(** The thread has read its entry and not yet deleted it. *)
Definition reading (p : pc) : bool :=
  match p with
  | AtDelete _ _ => true
  | _ => false
  end.

(** Ghost: the origin of a table entry, which tells entries under one id
    apart: it was in the table at the beginning, or it was made by the
    [n]-th store. *)
Inductive origin :=
| Initial (id : Z)
| Stored (n : nat).

Record thread := {
  th_request : request;
  th_status : Z;
  th_pc : pc;
  th_source : option origin   (* ghost: the entry its duration was computed from *)
}.

Record config := {
  shared : world;
  threads : list thread;
  origins : gmap Z origin;    (* ghost: the origin of each open entry *)
  stores : nat                (* ghost: the number of stores so far *)
}.

Definition id_of (t : thread) : Z := ITicket_id (th_request t).

Definition at_pc (t : thread) (p : pc) : thread :=
  {| th_request := th_request t; th_status := th_status t; th_pc := p;
     th_source := th_source t |}.

(** One statement of thread [t] on the shared world; [None] when the thread
    cannot move (it waits for the lock, or it has finished). *)
Definition step_thread (t : thread) (w : world) (g : gmap Z origin) (n : nat)
    : option (thread * world * gmap Z origin * nat) :=
  let id := id_of t in
  match th_pc t with
  | AtEntry => Some (at_pc t AtTime, w, g, n)
  | AtTime =>
      match time w with
      | (Return ct, w') => Some (at_pc t (AtAcquire ct), w', g, n)
      | _ => None
      end
  | AtAcquire ct =>
      match lock_acquire w with
      | (Return _, w') =>
          Some (at_pc t (if truthy (th_status t) then AtLookup ct else AtStore ct), w', g, n)
      | _ => None
      end
  | AtLookup ct =>
      match state_getitem id w with
      | (Return t0, w') =>
          Some ({| th_request := th_request t; th_status := th_status t;
                   th_pc := AtDelete ct (ct - t0)%float; th_source := g !! id |},
                w', g, n)
      | (Raise e, w') => Some (at_pc t (AtReleaseRaising e), w', g, n)
      | (Blocked, _) => None
      end
  | AtDelete ct request_time =>
      match state_delitem id w with
      | (Return _, w') => Some (at_pc t (AtRelease (VFloat request_time)), w', delete id g, n)
      | (Raise e, w') => Some (at_pc t (AtReleaseRaising e), w', g, n)
      | (Blocked, _) => None
      end
  | AtStore ct =>
      match state_setitem id ct w with
      | (Return _, w') => Some (at_pc t (AtRelease (VInt 0)), w', <[id := Stored n]> g, S n)
      | (Raise e, w') => Some (at_pc t (AtReleaseRaising e), w', g, n)
      | (Blocked, _) => None
      end
  | AtRelease request_time =>
      match lock_release w with
      | (Return _, w') => Some (at_pc t (AtLog request_time), w', g, n)
      | (Raise e, w') => Some (at_pc t (Raised e), w', g, n)
      | (Blocked, _) => None
      end
  | AtReleaseRaising e =>
      match lock_release w with
      | (Return _, w') => Some (at_pc t (Raised e), w', g, n)
      | (Raise e', w') => Some (at_pc t (Raised e'), w', g, n)
      | (Blocked, _) => None
      end
  | AtLog request_time =>
      match _log (if truthy (th_status t) then "-" else "+") (th_status t) id
              request_time (IInfo_str (th_request t)) w with
      | (Return _, w') => Some (at_pc t Returned, w', g, n)
      | (Raise e, w') => Some (at_pc t (Raised e), w', g, n)
      | (Blocked, _) => None
      end
  | Returned | Raised _ => None
  end.

(** Thread [i] executes its next statement. *)
Definition step (i : nat) (c : config) : option config :=
  match threads c !! i with
  | None => None
  | Some t =>
      match step_thread t (shared c) (origins c) (stores c) with
      | None => None
      | Some (t', w', g', n') =>
          Some {| shared := w'; threads := <[i := t']> (threads c);
                  origins := g'; stores := n' |}
      end
  end.

(** What the scheduler and the environment do: run a thread for one
    statement, or let the clock advance. *)
Inductive action :=
| Run (i : nat)
| Tick (r : Clock.reading).

Definition do_action (a : action) (c : config) : config :=
  match a with
  | Run i => default c (step i c)
  | Tick r =>
      {| shared := with_clock r (shared c); threads := threads c;
         origins := origins c; stores := stores c |}
  end.

Definition exec (sched : list action) (c : config) : config :=
  fold_left (fun c a => do_action a c) sched c.

Definition new_thread (call : request * Z) : thread :=
  {| th_request := fst call; th_status := snd call; th_pc := AtEntry;
     th_source := None |}.

(** The calls [calls] are about to begin in world [w]. *)
Definition start (w : world) (calls : list (request * Z)) : config :=
  {| shared := w; threads := map new_thread calls;
     origins := map_imap (fun id _ => Some (Initial id)) (_state w);
     stores := 0 |}.

(** Mutual exclusion: the lock is held exactly while one thread is between
    [acquire] and [release], and no second thread is. *)
Record lock_ok (c : config) : Prop := {
  inv_mutex : forall i j ti tj,
    threads c !! i = Some ti -> threads c !! j = Some tj ->
    critical (th_pc ti) = true -> critical (th_pc tj) = true -> i = j;
  inv_held : _lock (shared c) = true ->
    exists i t, threads c !! i = Some t /\ critical (th_pc t) = true;
  inv_free : _lock (shared c) = false ->
    forall i t, threads c !! i = Some t -> critical (th_pc t) = false
}.

(** The table and the entries the threads have read: every open entry has
    one origin of its own; a thread that has read an entry and not yet
    deleted it still finds that very entry in the table, with the start time
    its duration was computed from; an entry a thread has consumed is in the
    table no more; and no two threads have the same source. *)
Record table_ok (c : config) : Prop := {
  inv_dom : forall id, origins c !! id = None <-> _state (shared c) !! id = None;
  inv_fresh : forall id n, origins c !! id = Some (Stored n) -> (n < stores c)%nat;
  inv_inj : forall id id' o,
    origins c !! id = Some o -> origins c !! id' = Some o -> id = id';
  inv_source : forall i t o,
    threads c !! i = Some t -> th_source t = Some o ->
    (forall n, o = Stored n -> (n < stores c)%nat) /\
    if reading (th_pc t) then origins c !! id_of t = Some o
    else forall id, origins c !! id <> Some o;
  inv_reading : forall i t ct rt,
    threads c !! i = Some t -> th_pc t = AtDelete ct rt ->
    exists t0 o, _state (shared c) !! id_of t = Some t0 /\
                 rt = (ct - t0)%float /\ th_source t = Some o;
  inv_distinct : forall i j ti tj o,
    threads c !! i = Some ti -> threads c !! j = Some tj ->
    th_source ti = Some o -> th_source tj = Some o -> i = j
}.

Definition inv (c : config) : Prop := lock_ok c /\ table_ok c.

(** A terminal call (nonzero status) never stores, and once it has read its
    entry it has a source. *)
Definition source_known (t : thread) : Prop :=
  truthy (th_status t) = true ->
  match th_pc t with
  | AtStore _ => False
  | AtDelete _ _ | AtRelease _ | AtLog _ | Returned => is_Some (th_source t)
  | _ => True
  end.

Definition all_known (c : config) : Prop :=
  forall i t, threads c !! i = Some t -> source_known t.

End Threads.

(** ** A concrete response class and concrete events *)

Module HTTPResponse.

(** Exception classes a failure event may carry in [exc_info[0]]. *)
Inductive exc := NotFound | Unauthorized | InternalError.

Definition status_of (e : exc) : Z :=
  match e with
  | NotFound => 404
  | Unauthorized => 401
  | InternalError => 500
  end.

Definition reason_of (e : exc) : string :=
  match e with
  | NotFound => "Not Found"
  | Unauthorized => "Unauthorized"
  | InternalError => "Internal Server Error"
  end.

(** A response class in the manner of [ZPublisher.HTTPResponse]:
    [setStatus] stores the code and the reason of the exception class in the
    attributes [status] and [errmsg], [getStatus] reads [status] (200 by
    class default), and no [IStatus] adapter is registered. *)
#[global] Instance response_class : ResponseClass exc := {|
  setStatus e d := <["errmsg" := VStr (reason_of e)]> (<["status" := VInt (status_of e)]> d);
  getStatus d := match d !! "status" with Some (VInt n) => n | _ => 200 end;
  IStatus _ := Ok None
|}.

End HTTPResponse.

Module Sample.

Definition localtime : Clock.struct_time :=
  {| Clock.tm_year := 2026; Clock.tm_mon := 1; Clock.tm_mday := 2;
     Clock.tm_hour := 3; Clock.tm_min := 4; Clock.tm_sec := 5 |}.

Definition at_time (t : float) : Clock.reading :=
  {| Clock.time := t; Clock.localtime := localtime |}.

(** The binary64 value nearest to 1.2345, which is what the Python literal
    [1.2345] denotes. *)
Definition t_1_2345 : float := 0x1.3c083126e978dp+0%float.

(** The process before activation: nothing configured, nothing open. *)
Definition fresh : world :=
  {| _state := ∅; _logfile := None; _lock := false; heap := ∅;
     clock := at_time 100.5; trace := [] |}.

Definition file_config : gmap string (gmap string string) :=
  {[ "timelogging" := {[ "filebase" := "/var/log/timelog" ]} ]}.

Definition stderr_config : gmap string (gmap string string) :=
  {[ "timelogging" := {[ "filebase" := "/dev/stderr" ]} ]}.

Definition rotator : Rotator := {| rot_base := "/var/log/timelog"; rot_lock := true |}.

(** A request with ticket 7 whose response is object 1. *)
Definition req : request :=
  {| ITicket_id := 7; IInfo_str := "GET /x"; response := 1%positive |}.

Definition other_req : request :=
  {| ITicket_id := 8; IInfo_str := "GET /y"; response := 2%positive |}.

(** The instance dictionary of a response that was answered normally. *)
Definition ok_dict : rdict := {[ "status" := VInt 200; "errmsg" := VStr "OK" ]}.

(** A response that relies on the class default for [errmsg]. *)
Definition bare_dict : rdict := {[ "status" := VInt 200 ]}.

(** A response whose status attribute is 0. *)
Definition zero_dict : rdict := {[ "status" := VInt 0; "errmsg" := VStr "OK" ]}.

(** File logging is active and the response object exists; no request is
    open. *)
Definition active (d : rdict) : world :=
  {| _state := ∅; _logfile := Some (LFRotator rotator); _lock := false;
     heap := {[ 1%positive := d ]}; clock := at_time 100.5; trace := [] |}.

(** As [active], with request 7 open since 99.25. *)
Definition serving (d : rdict) : world :=
  {| _state := {[ 7 := 99.25%float ]}; _logfile := Some (LFRotator rotator);
     _lock := false; heap := {[ 1%positive := d ]}; clock := at_time 100.5;
     trace := [] |}.

Definition failure : event HTTPResponse.exc :=
  IPubFailure req HTTPResponse.InternalError false.

(** Three calls at the same time: request 7 starts, request 8 starts, and
    a second thread reports request 7 done. *)
Definition calls : list (request * Z) := [(req, 0); (other_req, 0); (req, 200)].

(** One interleaving of the three calls. *)
Definition schedule : list Threads.action :=
  [Threads.Run 0; Threads.Run 0; Threads.Run 0; Threads.Run 2; Threads.Run 1;
   Threads.Run 1; Threads.Run 1; Threads.Run 0; Threads.Run 0; Threads.Run 1;
   Threads.Run 0; Threads.Tick (at_time 101.75); Threads.Run 2; Threads.Run 2;
   Threads.Run 1; Threads.Run 1; Threads.Run 2; Threads.Run 2; Threads.Run 1;
   Threads.Run 2; Threads.Run 2; Threads.Run 2]%nat.

End Sample.

(** A second response class, with an [IStatus] adapter registered whose
    [__int__] returns the attribute [status] of the response: [int(adapter)]
    is that attribute when it is an integer, and raises [TypeError]
    ([__int__ returned non-int (type ...)]) when it is anything else.  Exception
    classes are given by their status code. *)
Module AdaptedResponse.

Definition int_of_attr (v : option pyval) : result (option Z) :=
  match v with
  | Some (VInt n) => Ok (Some n)
  | Some (VStr _) => Err (TypeError "__int__ returned non-int (type str)")
  | Some (VFloat _) => Err (TypeError "__int__ returned non-int (type float)")
  | Some VNone => Err (TypeError "__int__ returned non-int (type NoneType)")
  | Some (VRef _) => Err (TypeError "__int__ returned non-int (type object)")
  | None => Err (AttributeError "'Response' object has no attribute 'status'")
  end.

#[global] Instance response_class : ResponseClass Z := {|
  setStatus code d := <["status" := VInt code]> d;
  getStatus d := match d !! "status" with Some (VInt n) => n | _ => 200 end;
  IStatus d := int_of_attr (d !! "status")
|}.

(** A response whose status was set to a reason phrase. *)
Definition text_dict : rdict := {[ "status" := VStr "OK" ]}.

End AdaptedResponse.

(** ** Further notions *)

(** The call of a thread is over. *)
Definition finished (p : Threads.pc) : bool :=
  match p with
  | Threads.Returned | Threads.Raised _ => true
  | _ => false
  end.

(** The thread is past line 92, the store of a start call. *)
Definition past_store (p : Threads.pc) : bool :=
  match p with
  | Threads.AtRelease _ | Threads.AtLog _ | Threads.Returned | Threads.Raised _ => true
  | _ => false
  end.

(** A record is written to the sink, as opposed to a handler registration. *)
Definition is_record (e : effect) : bool :=
  match e with
  | RotatorWrite _ _ | LoggerInfo _ => true
  | ProvideHandler _ => false
  end.

(** A thread of a start call never looks up or deletes, and once it is
    past its store the table has an entry for its request. *)
Definition start_call_ok (w : world) (t : Threads.thread) : Prop :=
  Threads.th_status t = 0 /\
  match Threads.th_pc t with
  | Threads.AtLookup _ | Threads.AtDelete _ _ | Threads.AtReleaseRaising _ => False
  | p => past_store p = true -> is_Some (_state w !! Threads.id_of t)
  end.

(** ** Reading a record back

    What the columns of a record hold, said without the functions that
    render them: the blanks of a padded field, the decimal numeral of an
    integer, the two-digit groups of the timestamp, and the decimal text of
    a binary64 value rounded to four decimals. *)

(** [n] blanks. *)
Definition blanks (n : nat) : string := string_of_list_ascii (repeat " "%char n).

Definition is_digit (c : ascii) : bool :=
  let n := nat_of_ascii c in ((48 <=? n) && (n <=? 57))%nat.

Fixpoint all_digits (s : string) : bool :=
  match s with
  | "" => true
  | String c s' => is_digit c && all_digits s'
  end.

(** [s] is the decimal numeral of the natural number [n]: digits only, at
    least one, no leading zero except in ["0"], and the value [n]. *)
Definition numeral (n : Z) (s : string) : Prop :=
  all_digits s = true /\ s <> "" /\
  (s = "0" \/ PyStr.first_char s <> Some "0"%char) /\
  PyStr.parse_digits s 0 = n.

(** [s] is the text of the integer [z]: a minus sign when [z] is negative,
    then the numeral of its magnitude. *)
Definition int_text (z : Z) (s : string) : Prop :=
  exists ds, s = (if z <? 0 then "-" else "") ++ ds /\ numeral (Z.abs z) ds.

(** [s] is the two digits of [v] (of its last two digits, when [v] has more). *)
Definition two_digit_group (v : Z) (s : string) : Prop :=
  String.length s = 2%nat /\ all_digits s = true /\
  PyStr.parse_digits s 0 = v mod 100.

(** [s] is [yyMMddTHHmmss] for the local time [t]. *)
Definition timestamp_text (t : Clock.struct_time) (s : string) : Prop :=
  exists yy mm dd HH MM SS,
    s = yy ++ mm ++ dd ++ "T" ++ HH ++ MM ++ SS /\
    two_digit_group (Clock.tm_year t) yy /\ two_digit_group (Clock.tm_mon t) mm /\
    two_digit_group (Clock.tm_mday t) dd /\ two_digit_group (Clock.tm_hour t) HH /\
    two_digit_group (Clock.tm_min t) MM /\ two_digit_group (Clock.tm_sec t) SS.

(** [N] is the integer nearest to [num / den], the even one of the two when
    [num / den] lies half-way between them. *)
Definition nearest_even (num den N : Z) : Prop :=
  Z.abs (2 * num - 2 * N * den) <= den /\
  (Z.abs (2 * num - 2 * N * den) = den -> Z.even N = true).

(** [s] is the text of the binary64 value [x] with four decimals: for a
    finite [x = (-1)^sg * m * 2^e], a minus sign when the sign bit is set,
    the numeral of the integer part, a point and four digits, which together
    count the ten-thousandths [N] nearest to [m * 2^e * 10^4]. *)
Definition fixed4_text (x : spec_float) (s : string) : Prop :=
  match x with
  | S754_nan => s = "nan"
  | S754_infinity sg => s = (if sg then "-inf" else "inf")
  | S754_zero sg => s = (if sg then "-0.0000" else "0.0000")
  | S754_finite sg m e =>
      exists ip frac N,
        s = (if sg then "-" else "") ++ ip ++ String "." frac /\
        nearest_even (Z.pos m * 2 ^ Z.max e 0 * 10000) (2 ^ Z.max (- e) 0) N /\
        numeral (N / 10000) ip /\
        String.length frac = 4%nat /\ all_digits frac = true /\
        PyStr.parse_digits frac 0 = N mod 10000
  end.

(** [line] is the record
    [<timestamp> <status:3d> <request_time:10.4f> <kind:1c> <request_id:6d> <info>]
    and a newline, for the local time [t] and the request time [x]: the
    three numbers are padded on the left with blanks to 3, 10 and 6
    characters and kept whole when longer. *)
Definition record_text (t : Clock.struct_time) (status : Z) (x : spec_float)
    (kind : ascii) (request_id : Z) (info : string) (line : string) : Prop :=
  exists ts n_status n_time n_id,
    line = ts ++ " " ++ blanks (3 - String.length n_status) ++ n_status ++ " "
           ++ blanks (10 - String.length n_time) ++ n_time ++ " "
           ++ String kind "" ++ " "
           ++ blanks (6 - String.length n_id) ++ n_id ++ " " ++ info
           ++ String (ascii_of_nat 10) "" /\
    timestamp_text t ts /\ int_text status n_status /\
    fixed4_text x n_time /\ int_text request_id n_id.

(** A request time whose text has at most ten characters: one of less than
    99999 seconds, or a negative one of less than 9999 seconds. *)
Definition ten_columns (x : spec_float) : Prop :=
  match x with
  | S754_finite sg m e =>
      Z.pos m * 2 ^ Z.max e 0 < (if sg then 9999 else 99999) * 2 ^ Z.max (- e) 0
  | _ => True
  end.

(** * Properties *)

(** ** Text *)

Section StringFacts.
Import PyStr.

Lemma append_nil_r (s : string) : s ++ "" = s.
Proof. induction s as [|c s IH]; simpl; [reflexivity | now rewrite IH]. Qed.

Lemma append_assoc (a b c : string) : (a ++ b) ++ c = a ++ (b ++ c).
Proof. induction a as [|x a IH]; simpl; [reflexivity | now rewrite IH]. Qed.

Lemma length_append (a b : string) :
  String.length (a ++ b) = (String.length a + String.length b)%nat.
Proof. induction a as [|x a IH]; simpl; [reflexivity | now rewrite IH]. Qed.

Lemma length_spaces (n : nat) : String.length (spaces n) = n.
Proof. induction n as [|n IH]; simpl; [reflexivity | now rewrite IH]. Qed.

Lemma length_zeros (n : nat) : String.length (zeros n) = n.
Proof. induction n as [|n IH]; simpl; [reflexivity | now rewrite IH]. Qed.

Lemma length_rjust (w : nat) (s : string) :
  String.length (rjust w s) = Nat.max w (String.length s).
Proof. unfold rjust. rewrite length_append, length_spaces. lia. Qed.

Lemma length_zfill (p : nat) (s : string) :
  String.length (zfill p s) = Nat.max p (String.length s).
Proof. unfold zfill. rewrite length_append, length_zeros. lia. Qed.

Lemma rjust_wide (w : nat) (s : string) :
  (w <= String.length s)%nat -> rjust w s = s.
Proof.
  intros H. unfold rjust.
  replace (w - String.length s)%nat with 0%nat by lia. reflexivity.
Qed.

(** *** Decimal numerals *)

Lemma dec_go_acc (fuel : nat) : forall n acc,
  dec_go fuel n acc = dec_go fuel n "" ++ acc.
Proof.
  induction fuel as [|fuel IH]; intros n acc; simpl.
  - reflexivity.
  - destruct (n / 10 =? 0); [reflexivity|].
    rewrite (IH _ (String (digit n) acc)), (IH _ (String (digit n) "")).
    now rewrite append_assoc.
Qed.

Lemma dec_go_snoc (fuel : nat) (n : Z) :
  exists front, dec_go fuel n "" = front ++ String (digit n) "".
Proof.
  destruct fuel as [|fuel]; simpl.
  - now exists "".
  - destruct (n / 10 =? 0); [now exists ""|].
    rewrite dec_go_acc. eauto.
Qed.

Lemma last_char_snoc (s : string) (c : ascii) :
  last_char (s ++ String c "") = Some c.
Proof.
  induction s as [|x s IH]; simpl; [reflexivity|].
  rewrite IH. destruct (s ++ String c "") eqn:E; [|reflexivity].
  destruct s; discriminate.
Qed.

Lemma last_char_dec (n : Z) : last_char (dec n) = Some (digit n).
Proof.
  unfold dec. destruct (dec_go_snoc (Z.to_nat (Z.log2 n)) n) as [front ->].
  apply last_char_snoc.
Qed.

Lemma last_char_cons (c : ascii) (s : string) :
  s <> "" -> last_char (String c s) = last_char s.
Proof. destruct s; [congruence | reflexivity]. Qed.

Lemma dec_nonempty (n : Z) : dec n <> "".
Proof.
  intros E. pose proof (last_char_dec n) as H. rewrite E in H. discriminate.
Qed.

Lemma last_char_str_int (z : Z) :
  last_char (str_int z) = Some (digit (Z.abs z)).
Proof.
  unfold str_int. destruct (z <? 0) eqn:E.
  - rewrite last_char_cons by apply dec_nonempty.
    rewrite last_char_dec. f_equal. f_equal. lia.
  - rewrite last_char_dec. f_equal. f_equal. lia.
Qed.

Lemma last_char_app (a b : string) :
  b <> "" -> last_char (a ++ b) = last_char b.
Proof.
  intros Hb. induction a as [|x a IH]; simpl; [reflexivity|].
  rewrite IH. destruct (a ++ b) eqn:E; [|reflexivity].
  destruct a; simpl in E; [congruence | discriminate].
Qed.

Lemma digit_not_space (n : Z) : isspace (digit n) = false.
Proof.
  unfold digit.
  assert (H : (Z.to_nat (n mod 10) < 10)%nat)
    by (pose proof (Z.mod_pos_bound n 10); lia).
  destruct (Z.to_nat (n mod 10)) as [|[|[|[|[|[|[|[|[|[|k]]]]]]]]]];
    try reflexivity; lia.
Qed.

(** A numeral of a number below [10^(k+1)] has at most [k+1] digits. *)
Lemma length_dec_go (fuel : nat) : forall (k : nat) n acc,
  0 <= n < 10 ^ Z.of_nat (S k) ->
  (String.length (dec_go fuel n acc) <= S k + String.length acc)%nat.
Proof.
  induction fuel as [|fuel IH]; intros k n acc Hn; simpl.
  - lia.
  - destruct (n / 10 =? 0) eqn:E; simpl; [lia|].
    apply Z.eqb_neq in E.
    destruct k as [|k].
    + exfalso. apply E. apply Z.div_small. simpl in Hn. lia.
    + specialize (IH k (n / 10) (String (digit n) acc)).
      simpl String.length in IH.
      assert (0 <= n / 10 < 10 ^ Z.of_nat (S k)).
      { split; [apply Z.div_pos; lia|].
        apply Z.div_lt_upper_bound; [lia|].
        replace (10 * 10 ^ Z.of_nat (S k)) with (10 ^ Z.of_nat (S (S k))); [lia|].
        rewrite (Nat2Z.inj_succ (S k)), Z.pow_succ_r by lia. reflexivity. }
      specialize (IH H). lia.
Qed.

Lemma length_dec_bound (k : nat) (n : Z) :
  0 <= n < 10 ^ Z.of_nat (S k) -> (String.length (dec n) <= S k)%nat.
Proof.
  intros H. unfold dec.
  pose proof (length_dec_go (Z.to_nat (Z.log2 n)) k n "" H) as L.
  simpl in L. lia.
Qed.

(** The numeral of a number reads back as the number. *)
Lemma digit_value_digit (n : Z) : digit_value (digit n) = n mod 10.
Proof.
  unfold digit_value, digit.
  pose proof (Z.mod_pos_bound n 10 ltac:(lia)) as H.
  rewrite nat_ascii_embedding by lia. lia.
Qed.

Lemma parse_dec_go (fuel : nat) : forall n acc,
  0 <= n < 2 ^ Z.of_nat (S fuel) ->
  parse_digits (dec_go fuel n acc) 0 = parse_digits acc n.
Proof.
  induction fuel as [|fuel IH]; intros n acc Hn.
  - cbn [dec_go parse_digits]. rewrite digit_value_digit.
    f_equal. change (2 ^ Z.of_nat 1) with 2 in Hn.
    rewrite Z.mod_small by lia. lia.
  - cbn [dec_go]. destruct (n / 10 =? 0) eqn:E.
    + apply Z.eqb_eq in E. cbn [parse_digits]. rewrite digit_value_digit.
      f_equal. pose proof (Z.div_mod n 10 ltac:(lia)). lia.
    + rewrite IH.
      * cbn [parse_digits]. rewrite digit_value_digit.
        f_equal. pose proof (Z.div_mod n 10 ltac:(lia)). lia.
      * split; [apply Z.div_pos; lia|].
        apply Z.div_lt_upper_bound; [lia|].
        rewrite (Nat2Z.inj_succ (S fuel)), Z.pow_succ_r in Hn by lia. lia.
Qed.

Lemma parse_dec (n : Z) : 0 <= n -> parse_digits (dec n) 0 = n.
Proof.
  intros Hn. unfold dec. rewrite parse_dec_go; [reflexivity|].
  split; [exact Hn|].
  destruct (Z.eq_dec n 0) as [-> | Hz]; [reflexivity|].
  rewrite Nat2Z.inj_succ, Z2Nat.id by apply Z.log2_nonneg.
  apply Z.log2_spec. lia.
Qed.

Lemma first_char_dec_go (fuel : nat) : forall n acc,
  exists m, first_char (dec_go fuel n acc) = Some (digit m).
Proof.
  induction fuel as [|fuel IH]; intros n acc; cbn [dec_go].
  - now exists n.
  - destruct (n / 10 =? 0); [now exists n | apply IH].
Qed.

Lemma digit_not_minus (m : Z) : digit m <> "-"%char.
Proof.
  unfold digit.
  assert (H : (Z.to_nat (m mod 10) < 10)%nat)
    by (pose proof (Z.mod_pos_bound m 10); lia).
  destruct (Z.to_nat (m mod 10)) as [|[|[|[|[|[|[|[|[|[|k]]]]]]]]]];
    try discriminate; lia.
Qed.

Lemma int_of_str_int (z : Z) : int_of_str (str_int z) = z.
Proof.
  unfold str_int. destruct (z <? 0) eqn:E.
  - apply Z.ltb_lt in E. cbn [int_of_str]. rewrite parse_dec by lia. lia.
  - apply Z.ltb_ge in E. unfold int_of_str.
    pose proof (parse_dec z E) as P.
    destruct (first_char_dec_go (Z.to_nat (Z.log2 z)) z "") as [m Hm].
    fold (dec z) in Hm. destruct (dec z) as [|c r]; [exact P|].
    cbn in Hm. injection Hm as ->.
    pose proof (digit_not_minus m) as Hd.
    destruct (digit m) as [[] [] [] [] [] [] [] []]; try exact P.
    now contradiction Hd.
Qed.

(** *** Stripping *)

Lemma lstrip_first (c : ascii) (s : string) :
  isspace c = false -> lstrip (String c s) = String c s.
Proof. intros H. simpl. now rewrite H. Qed.

Lemma rstrip_all_space (t : string) : all_space t = true -> rstrip t = "".
Proof.
  induction t as [|c t IH]; simpl; [reflexivity|].
  intros H. apply andb_true_iff in H as [Hc Ht].
  rewrite (IH Ht), Hc. reflexivity.
Qed.

Lemma rstrip_keep (s t : string) (c : ascii) :
  last_char s = Some c -> isspace c = false -> all_space t = true ->
  rstrip (s ++ t) = s.
Proof.
  intros Hl Hc Ht. induction s as [|x s IH]; [discriminate|].
  simpl. destruct s as [|y s].
  - simpl in *. injection Hl as ->. rewrite (rstrip_all_space t Ht), Hc. reflexivity.
  - rewrite IH by exact Hl. reflexivity.
Qed.

(** A text that begins and ends with a character that is not whitespace
    loses exactly the whitespace appended to it. *)
Lemma strip_keep (s t : string) (a c : ascii) :
  first_char s = Some a -> isspace a = false ->
  last_char s = Some c -> isspace c = false ->
  all_space t = true ->
  strip (s ++ t) = s.
Proof.
  intros Hf Ha Hl Hc Ht. unfold strip.
  destruct s as [|x s]; [discriminate|].
  simpl in Hf. injection Hf as ->.
  change (String a s ++ t) with (String a (s ++ t)).
  rewrite lstrip_first by exact Ha.
  change (String a (s ++ t)) with (String a s ++ t).
  eapply rstrip_keep; eauto.
Qed.

Lemma lstrip_first_char (s : string) (c : ascii) :
  first_char (lstrip s) = Some c -> isspace c = false.
Proof.
  induction s as [|x s IH]; simpl; [discriminate|].
  destruct (isspace x) eqn:E; [exact IH|].
  simpl. intros [= <-]. exact E.
Qed.

Lemma rstrip_last_char (s : string) (c : ascii) :
  last_char (rstrip s) = Some c -> isspace c = false.
Proof.
  revert c. induction s as [|x s IH]; intros c; simpl; [discriminate|].
  destruct (rstrip s) as [|y r] eqn:E.
  - destruct (isspace x) eqn:Ex; simpl; [discriminate|].
    intros [= <-]. exact Ex.
  - intros H. apply IH. exact H.
Qed.

Lemma rstrip_first_char (s : string) (c : ascii) :
  first_char (rstrip s) = Some c -> first_char s = Some c.
Proof.
  destruct s as [|x s]; simpl; [discriminate|].
  destruct (rstrip s); [destruct (isspace x)|]; simpl; congruence.
Qed.

(** The stripped text neither begins nor ends with whitespace. *)
Lemma strip_ends (s : string) :
  (forall c, first_char (strip s) = Some c -> isspace c = false) /\
  (forall c, last_char (strip s) = Some c -> isspace c = false).
Proof.
  unfold strip. split; intros c H.
  - apply rstrip_first_char in H. eapply lstrip_first_char; eauto.
  - eapply rstrip_last_char; eauto.
Qed.

End StringFacts.

(** ** The record format *)

Section FormatFacts.
Import PyStr PyFloat PyFormat.

(** [_log_format] read as six conversions separated by single spaces and
    closed by a newline. *)
Lemma parse_log_format :
  parse PText _log_format =
  Ok [DConv 0 None "s"; DLit " "; DConv 3 None "d"; DLit " ";
      DConv 10 (Some 4%nat) "f"; DLit " "; DConv 0 None "c"; DLit " ";
      DConv 6 None "d"; DLit " "; DConv 0 None "s"; DLit (ascii_of_nat 10)].
Proof. vm_compute. reflexivity. Qed.

Lemma conv_d_str_int (z : Z) : conv_d None (VInt z) = Ok (str_int z).
Proof.
  unfold conv_d, str_int. destruct (z <? 0) eqn:E.
  - apply Z.ltb_lt in E. now rewrite Z.abs_neq by lia.
  - apply Z.ltb_ge in E. now rewrite Z.abs_eq by lia.
Qed.

Lemma rjust_0 (s : string) : rjust 0 s = s.
Proof. reflexivity. Qed.

Lemma conv_f_zero : conv_f (Some 4%nat) (VInt 0) = Ok "0.0000".
Proof. vm_compute. reflexivity. Qed.

Lemma convert_s (w : nat) (s : string) :
  convert w None "s" (VStr s) = Ok (rjust w s).
Proof. reflexivity. Qed.

Lemma convert_d (w : nat) (z : Z) :
  convert w None "d" (VInt z) = Ok (rjust w (str_int z)).
Proof. unfold convert. now rewrite conv_d_str_int. Qed.

Lemma convert_c (w : nat) (c : ascii) :
  convert w None "c" (VStr (String c "")) = Ok (rjust w (String c "")).
Proof. reflexivity. Qed.

Lemma convert_f (w : nat) (rt : pyval) :
  (rt = VInt 0 \/ exists f, rt = VFloat f) ->
  convert w (Some 4%nat) "f" rt = Ok (rjust w (request_time_text rt)).
Proof.
  intros [-> | [f ->]]; unfold convert.
  - now rewrite conv_f_zero.
  - reflexivity.
Qed.

Lemma log_string_layout (ts : string) (kind : ascii) (status id : Z)
    (rt : pyval) (info : string) :
  (rt = VInt 0 \/ exists f, rt = VFloat f) ->
  log_string ts (String kind "") status id rt info =
  Ok (layout ts status (request_time_text rt) kind id info).
Proof.
  intros Hrt. unfold log_string, format. rewrite parse_log_format.
  cbn [rbind render Ascii.eqb Bool.eqb].
  rewrite !convert_s, !convert_d, convert_c, (convert_f _ _ Hrt).
  cbn [rbind]. rewrite !rjust_0.
  reflexivity.
Qed.

Lemma strftime_log_time_format (t : Clock.struct_time) :
  Clock.strftime _log_time_format t = timestamp_of t.
Proof. reflexivity. Qed.

Lemma length_two_digits (n : Z) : String.length (Clock.two_digits n) = 2%nat.
Proof. reflexivity. Qed.

Lemma length_timestamp (t : Clock.struct_time) :
  String.length (timestamp_of t) = 13%nat.
Proof. reflexivity. Qed.

Lemma first_char_timestamp (t : Clock.struct_time) :
  first_char (timestamp_of t) = Some (digit (Clock.tm_year t mod 100 / 10)).
Proof. reflexivity. Qed.


End FormatFacts.

(** ** The module functions, step by step *)

(** Unfold the monad and the primitives of module code. *)
Ltac mstep :=
  cbv beta iota delta
    [bind gets ret raise modify lift time strftime lock_acquire lock_release
     try_finally state_getitem state_delitem state_setitem assert_ negb];
  cbn [_lock _state _logfile heap clock trace with_lock with_state
       with_logfile with_heap with_clock emit fst snd].

Ltac mstep_in H :=
  cbv beta iota delta
    [bind gets ret raise modify lift time strftime lock_acquire lock_release
     try_finally state_getitem state_delitem state_setitem assert_ negb] in H;
  cbn [_lock _state _logfile heap clock trace with_lock with_state
       with_logfile with_heap with_clock emit fst snd] in H.

Section LogFacts.

Lemma with_lock_roundtrip (f : gmap Z float -> gmap Z float) (w : world) :
  _lock w = false ->
  with_lock false (with_state f (with_lock true w)) = with_state f w.
Proof. destruct w; simpl; intros ->; reflexivity. Qed.

Lemma with_lock_restore (w : world) :
  _lock w = false -> with_lock false (with_lock true w) = w.
Proof. destruct w; simpl; intros ->; reflexivity. Qed.

(** What [_log] does once the line is rendered. *)
Lemma _log_rendered (type : string) (status id : Z) (rt : pyval)
    (info line : string) (w : world) :
  log_string (now_text w) type status id rt info = Ok line ->
  _log type status id rt info w =
  match _logfile w with
  | None => (Return tt, w)
  | Some l =>
      if logfile_is_STDERR l then (Return tt, emit (LoggerInfo (PyStr.strip line)) w)
      else logfile_write l line w
  end.
Proof.
  intros H. unfold _log, bind, strftime, gets. simpl.
  rewrite strftime_log_time_format. fold (now_text w). rewrite H. simpl.
  destruct (_logfile w) as [l|]; [|reflexivity].
  destruct (logfile_is_STDERR l); reflexivity.
Qed.

(** With a configured sink, one record reaches it and [_log] returns. *)
Lemma _log_configured (kind : ascii) (status id : Z) (rt : pyval)
    (info : string) (l : logfile) (w : world) :
  (rt = VInt 0 \/ exists f, rt = VFloat f) ->
  _logfile w = Some l -> configured l ->
  _log (String kind "") status id rt info w =
  (Return tt,
   emit (emitted l (layout (now_text w) status (request_time_text rt) kind id info)) w).
Proof.
  intros Hrt Hl Hc.
  rewrite (_log_rendered _ _ _ _ _ _ _ (log_string_layout _ _ _ _ _ _ Hrt)), Hl.
  destruct l as [s | r]; simpl in *.
  - subst s. reflexivity.
  - reflexivity.
Qed.

(** Without a sink, [_log] leaves the world as it is. *)
Lemma _log_unconfigured (type : string) (status id : Z) (rt : pyval)
    (info : string) (w : world) :
  _logfile w = None ->
  snd (_log type status id rt info w) = w.
Proof.
  intros Hl. unfold _log, bind, strftime, gets. simpl.
  destruct (log_string _ type status id rt info); simpl; [|reflexivity].
  rewrite Hl. reflexivity.
Qed.

(** A start event stores the clock reading under the lock, then logs. *)
Lemma account_request_start (rq : request) (w : world) :
  _lock w = false ->
  account_request rq 0 w =
  _log "+" 0 (ITicket_id rq) (VInt 0) (IInfo_str rq)
    (with_state (insert (ITicket_id rq) (Clock.time (clock w))) w).
Proof.
  intros Hl. unfold account_request. cbn [truthy Z.eqb negb].
  mstep. rewrite Hl. mstep.
  rewrite with_lock_roundtrip by exact Hl. reflexivity.
Qed.

(** A terminal event on an open entry takes it out of the table under the
    lock, then logs the difference of the two clock readings. *)
Lemma account_request_end (rq : request) (status : Z) (t0 : float) (w : world) :
  _lock w = false -> status <> 0 ->
  _state w !! ITicket_id rq = Some t0 ->
  account_request rq status w =
  _log "-" status (ITicket_id rq) (VFloat (Clock.time (clock w) - t0)%float)
    (IInfo_str rq) (with_state (delete (ITicket_id rq)) w).
Proof.
  intros Hl Hs He. unfold account_request, truthy.
  destruct (status =? 0) eqn:E; [apply Z.eqb_eq in E; contradiction|].
  mstep. rewrite Hl. mstep. rewrite He. mstep. rewrite He. mstep.
  rewrite with_lock_roundtrip by exact Hl. reflexivity.
Qed.

(** A terminal event without an open entry raises [KeyError] out of the
    locked block; the lock is released and nothing else has changed. *)
Lemma account_request_miss (rq : request) (status : Z) (w : world) :
  _lock w = false -> status <> 0 ->
  _state w !! ITicket_id rq = None ->
  account_request rq status w = (Raise (KeyError (VInt (ITicket_id rq))), w).
Proof.
  intros Hl Hs He. unfold account_request, truthy.
  destruct (status =? 0) eqn:E; [apply Z.eqb_eq in E; contradiction|].
  mstep. rewrite Hl. mstep. rewrite He. mstep.
  rewrite with_lock_restore by exact Hl. reflexivity.
Qed.

End LogFacts.

(** ** What a call leaves alone *)

Section FrameFacts.

(** [_log] touches nothing but the trace. *)
Lemma _log_frame (type : string) (status id : Z) (rt : pyval) (info : string)
    (w : world) :
  let w' := snd (_log type status id rt info w) in
  _state w' = _state w /\ _lock w' = _lock w /\ _logfile w' = _logfile w /\
  heap w' = heap w /\ clock w' = clock w.
Proof.
  unfold _log. mstep.
  destruct (log_string _ type status id rt info); mstep; [|tauto].
  destruct (_logfile w) as [l|] eqn:El; [|tauto].
  destruct (logfile_is_STDERR l); [unfold _LOGGER_info; mstep; tauto|].
  destruct l; unfold logfile_write; mstep; tauto.
Qed.

(** [_log] always comes back. *)
Lemma _log_not_blocked (type : string) (status id : Z) (rt : pyval)
    (info : string) (w : world) :
  fst (_log type status id rt info w) <> Blocked.
Proof.
  unfold _log. mstep.
  destruct (log_string _ type status id rt info); mstep; [|discriminate].
  destruct (_logfile w) as [l|] eqn:El; [|discriminate].
  destruct (logfile_is_STDERR l); [unfold _LOGGER_info; mstep; discriminate|].
  destruct l; unfold logfile_write; mstep; discriminate.
Qed.

(** [account_request] gives the lock back, keeps the sink, the clock and
    the response objects, and changes no entry but its own request's. *)
Lemma account_request_frame (rq : request) (status : Z) (w : world) :
  _lock w = false ->
  let w' := snd (account_request rq status w) in
  _lock w' = false /\ _logfile w' = _logfile w /\ heap w' = heap w /\
  clock w' = clock w /\
  (forall j, j <> ITicket_id rq -> _state w' !! j = _state w !! j).
Proof.
  intros Hl. destruct (Z.eq_dec status 0) as [-> | Hs].
  - rewrite account_request_start by exact Hl.
    destruct (_log_frame "+" 0 (ITicket_id rq) (VInt 0) (IInfo_str rq)
                (with_state (insert (ITicket_id rq) (Clock.time (clock w))) w))
      as (H1 & H2 & H3 & H4 & H5).
    cbn zeta. rewrite H1, H2, H3, H4, H5. cbn.
    repeat split; try assumption.
    intros j Hj. now rewrite lookup_insert_ne.
  - destruct (_state w !! ITicket_id rq) as [t0|] eqn:E.
    + rewrite (account_request_end _ _ t0) by assumption.
      destruct (_log_frame "-" status (ITicket_id rq)
                  (VFloat (Clock.time (clock w) - t0)%float) (IInfo_str rq)
                  (with_state (delete (ITicket_id rq)) w))
        as (H1 & H2 & H3 & H4 & H5).
      cbn zeta. rewrite H1, H2, H3, H4, H5. cbn.
      repeat split; try assumption.
      intros j Hj. now rewrite lookup_delete_ne.
    + rewrite account_request_miss by assumption. cbn. tauto.
Qed.

(** While the lock is held by someone else the call waits at [acquire]. *)
Lemma account_request_blocked (rq : request) (status : Z) (w : world) :
  _lock w = true -> account_request rq status w = (Blocked, w).
Proof.
  intros Hl. unfold account_request. mstep. rewrite Hl. reflexivity.
Qed.

Lemma account_request_heap (rq : request) (status : Z) (w : world) :
  heap (snd (account_request rq status w)) = heap w.
Proof.
  destruct (_lock w) eqn:Hl.
  - now rewrite account_request_blocked.
  - now destruct (account_request_frame rq status w Hl) as (_ & _ & H & _).
Qed.

Lemma run_call_frame (c : call) (w : world) (id : Z) :
  _lock w = false -> ITicket_id (call_request c) <> id ->
  _lock (run_call c w) = false /\ _logfile (run_call c w) = _logfile w /\
  _state (run_call c w) !! id = _state w !! id.
Proof.
  intros Hl Hne. unfold run_call.
  destruct (account_request_frame (call_request c) (call_status c)
              (with_clock (call_clock c) w) Hl) as (H1 & H2 & _ & _ & H5).
  repeat split; [exact H1 | exact H2 |].
  rewrite H5 by congruence. reflexivity.
Qed.

(** Calls for other requests leave the entry of request [id] as it is. *)
Lemma run_calls_frame (cs : list call) (id : Z) : forall w,
  _lock w = false ->
  Forall (fun c => ITicket_id (call_request c) <> id) cs ->
  _lock (run_calls cs w) = false /\ _logfile (run_calls cs w) = _logfile w /\
  _state (run_calls cs w) !! id = _state w !! id.
Proof.
  induction cs as [|c cs IH]; intros w Hl Hall; [cbn; tauto|].
  inversion Hall as [|? ? Hc Hcs]; subst.
  destruct (run_call_frame c w id Hl Hc) as (H1 & H2 & H3).
  destruct (IH (run_call c w) H1 Hcs) as (I1 & I2 & I3).
  change (run_calls (c :: cs) w) with (run_calls cs (run_call c w)).
  rewrite I2, I3, H2, H3. tauto.
Qed.

End FrameFacts.

(** ** The publication handlers *)

Section HandlerFacts.
Context {exc : Type} {RC : ResponseClass exc}.

(** The success handler raises what the status resolution raises, fails
    its assertion on a zero status, and accounts the request otherwise. *)
Lemma handle_request_success_resolved (ev : event exc) (w : world) :
  handle_request_success ev w =
  match resolve_status (dict_of w (response (event_request ev))) with
  | Err e => (Raise e, w)
  | Ok n =>
      if n =? 0 then (Raise AssertionError, w)
      else account_request (event_request ev) n w
  end.
Proof.
  unfold handle_request_success, resolve_status, response_dict, dict_of.
  mstep. destruct (IStatus _) as [[n|]|e]; cbn [rbind]; unfold truthy.
  - destruct (n =? 0); mstep; reflexivity.
  - destruct (getStatus _ =? 0); mstep; reflexivity.
  - mstep. reflexivity.
Qed.

Lemma handle_request_success_heap (ev : event exc) (w : world) :
  heap (snd (handle_request_success ev w)) = heap w.
Proof.
  rewrite handle_request_success_resolved.
  destruct (resolve_status _) as [n|e]; [|reflexivity].
  destruct (n =? 0); [reflexivity|].
  apply account_request_heap.
Qed.

Lemma dict_of_insert (w : world) (l : positive) (d : rdict) :
  dict_of (with_heap (insert l d) w) l = d.
Proof. unfold dict_of. cbn. now rewrite lookup_insert_eq. Qed.

(** The failure handler without retry, in one equation: the status is
    forced, the success handler runs, and only when that returns is the
    saved dictionary written back over the current one. *)
Lemma handle_request_failure_no_retry (rq : request) (e : exc) (w : world) :
  let l := response rq in
  let saved := dict_of w l in
  let forced := with_heap (insert l (setStatus e saved)) w in
  handle_request_failure (IPubFailure rq e false) w =
  match handle_request_success (IPubFailure rq e false) forced with
  | (Return _, w2) => (Return tt, with_heap (insert l (saved ∪ setStatus e saved)) w2)
  | (Raise x, w2) => (Raise x, w2)
  | (Blocked, w2) => (Blocked, w2)
  end.
Proof.
  intros l saved forced.
  unfold handle_request_failure, response_dict, set_response_dict.
  mstep. fold l. fold (dict_of w l). fold saved. fold forced.
  assert (Hh := handle_request_success_heap (IPubFailure rq e false) forced).
  destruct (handle_request_success (IPubFailure rq e false) forced)
    as [[[]|x|] w2]; try reflexivity.
  cbn in Hh. rewrite Hh. subst forced. cbn. rewrite lookup_insert_eq. reflexivity.
Qed.

(** When the success handler raises, so does the failure handler, and the
    response is left with the forced dictionary. *)
Lemma handle_request_failure_raises (rq : request) (e : exc) (x : exn)
    (w w' : world) :
  handle_request_failure (IPubFailure rq e false) w = (Raise x, w') ->
  dict_of w' (response rq) = setStatus e (dict_of w (response rq)).
Proof.
  intros H. rewrite handle_request_failure_no_retry in H.
  set (forced := with_heap (insert (response rq)
                   (setStatus e (dict_of w (response rq)))) w) in H.
  assert (Hh := handle_request_success_heap (IPubFailure rq e false) forced).
  destruct (handle_request_success (IPubFailure rq e false) forced)
    as [[[]|y|] w2]; try discriminate.
  injection H as _ <-. cbn in Hh. unfold dict_of. rewrite Hh.
  subst forced. cbn. now rewrite lookup_insert_eq.
Qed.

End HandlerFacts.

(** ** The line and its stripped form *)

Section LayoutFacts.
Import PyStr.

Lemma layout_split (ts : string) (status : Z) (rt : string) (kind : ascii)
    (id : Z) (info : string) :
  layout ts status rt kind id info =
  layout_head ts status rt kind id ++ (" " ++ info ++ newline).
Proof.
  unfold layout, layout_head, newline. now rewrite !append_assoc.
Qed.

Lemma str_int_nonempty (z : Z) : str_int z <> "".
Proof.
  intros E. pose proof (last_char_str_int z) as H. rewrite E in H. discriminate.
Qed.

Lemma last_char_rjust (w : nat) (s : string) :
  s <> "" -> last_char (rjust w s) = last_char s.
Proof. intros H. unfold rjust. now apply last_char_app. Qed.

Lemma rjust_nonempty (w : nat) (s : string) : s <> "" -> rjust w s <> "".
Proof.
  intros H E. apply (f_equal String.length) in E.
  rewrite length_rjust in E. destruct s; [congruence | simpl in E; lia].
Qed.

Lemma append_nonempty_r (a b : string) : b <> "" -> a ++ b <> "".
Proof. intros H. destruct a; [exact H | discriminate]. Qed.

Lemma last_char_layout_head (ts : string) (status : Z) (rt : string)
    (kind : ascii) (id : Z) :
  last_char (layout_head ts status rt kind id) = Some (digit (Z.abs id)).
Proof.
  unfold layout_head.
  assert (H6 : rjust 6 (str_int id) <> "")
    by (apply rjust_nonempty, str_int_nonempty).
  remember (rjust 6 (str_int id)) as r6 eqn:E6.
  do 8 (rewrite last_char_app; [| repeat apply append_nonempty_r; exact H6]).
  subst r6. rewrite last_char_rjust by apply str_int_nonempty.
  apply last_char_str_int.
Qed.

Lemma first_char_layout_head (t : Clock.struct_time) (status : Z) (rt : string)
    (kind : ascii) (id : Z) :
  first_char (layout_head (timestamp_of t) status rt kind id) =
  Some (digit (Clock.tm_year t mod 100 / 10)).
Proof. reflexivity. Qed.

Lemma last_char_layout (ts : string) (status : Z) (rt : string) (kind : ascii)
    (id : Z) (info : string) :
  last_char (layout ts status rt kind id info) = Some (ascii_of_nat 10).
Proof.
  unfold layout.
  repeat (rewrite last_char_app; [| repeat apply append_nonempty_r; discriminate]).
  reflexivity.
Qed.

(** Stripping a record without info removes the separator and the newline. *)
Lemma strip_layout_no_info (t : Clock.struct_time) (status : Z) (rt : string)
    (kind : ascii) (id : Z) :
  strip (layout (timestamp_of t) status rt kind id "") =
  layout_head (timestamp_of t) status rt kind id.
Proof.
  rewrite layout_split.
  eapply strip_keep.
  - apply first_char_layout_head.
  - apply digit_not_space.
  - apply last_char_layout_head.
  - apply digit_not_space.
  - reflexivity.
Qed.

Lemma round_half_even_nonneg (num den : Z) :
  0 <= num -> 0 < den -> 0 <= PyFloat.round_half_even num den.
Proof.
  intros Hn Hd. unfold PyFloat.round_half_even.
  assert (0 <= num / den) by (apply Z.div_pos; lia).
  repeat match goal with |- context [if ?b then _ else _] => destruct b end; lia.
Qed.

(** The rounded quotient is a nearest integer: it is off by at most half. *)
Lemma round_half_even_nearest (num den : Z) :
  0 < den ->
  Z.abs (2 * num - 2 * PyFloat.round_half_even num den * den) <= den.
Proof.
  intros Hd. unfold PyFloat.round_half_even.
  pose proof (Z.div_mod num den ltac:(lia)) as E.
  pose proof (Z.mod_pos_bound num den Hd) as B.
  destruct (2 * (num mod den) <? den) eqn:E1;
    [apply Z.ltb_lt in E1; nia|apply Z.ltb_ge in E1].
  destruct (den <? 2 * (num mod den)) eqn:E2;
    [apply Z.ltb_lt in E2; nia|apply Z.ltb_ge in E2].
  destruct (Z.even (num / den)); nia.
Qed.

Lemma scaled_nonneg (m : positive) (e : Z) (p : nat) : 0 <= PyFloat.scaled m e p.
Proof.
  unfold PyFloat.scaled.
  assert (0 < 10 ^ Z.of_nat p) by (apply Z.pow_pos_nonneg; lia).
  destruct (0 <=? e) eqn:E.
  - apply Z.leb_le in E. assert (0 < 2 ^ e) by (apply Z.pow_pos_nonneg; lia). nia.
  - apply Z.leb_gt in E. apply round_half_even_nonneg; [nia|].
    apply Z.pow_pos_nonneg; lia.
Qed.

End LayoutFacts.

(** ** The columns of a record, read back *)

Section RecordFacts.
Import PyStr PyFloat.

Lemma spaces_blanks (n : nat) : spaces n = blanks n.
Proof.
  induction n as [|n IH]; [reflexivity|].
  unfold blanks. cbn [repeat string_of_list_ascii spaces]. f_equal. exact IH.
Qed.

Lemma rjust_blanks (w : nat) (s : string) :
  rjust w s = blanks (w - String.length s) ++ s.
Proof. unfold rjust. now rewrite spaces_blanks. Qed.

Lemma is_digit_digit (n : Z) : is_digit (digit n) = true.
Proof.
  unfold is_digit, digit.
  pose proof (Z.mod_pos_bound n 10 ltac:(lia)) as H.
  rewrite nat_ascii_embedding by lia.
  apply andb_true_iff; split; apply Nat.leb_le; lia.
Qed.

Lemma all_digits_app (a b : string) :
  all_digits a = true -> all_digits b = true -> all_digits (a ++ b) = true.
Proof.
  induction a as [|c a IH]; intros Ha Hb; [exact Hb|].
  cbn [all_digits String.append] in *.
  apply andb_true_iff in Ha as [Hc Ha]. rewrite Hc. now apply IH.
Qed.

Lemma all_digits_dec_go (fuel : nat) : forall n acc,
  all_digits acc = true -> all_digits (dec_go fuel n acc) = true.
Proof.
  induction fuel as [|fuel IH]; intros n acc Ha; cbn [dec_go].
  - cbn [all_digits]. now rewrite is_digit_digit.
  - destruct (n / 10 =? 0); [|apply IH];
      cbn [all_digits]; now rewrite is_digit_digit.
Qed.

Lemma all_digits_dec (n : Z) : all_digits (dec n) = true.
Proof. now apply all_digits_dec_go. Qed.

Lemma all_digits_zeros (k : nat) : all_digits (zeros k) = true.
Proof. induction k as [|k IH]; [reflexivity | exact IH]. Qed.

Lemma all_digits_zfill (p : nat) (s : string) :
  all_digits s = true -> all_digits (zfill p s) = true.
Proof. intros H. apply all_digits_app; [apply all_digits_zeros | exact H]. Qed.

Lemma digit_not_zero (d : Z) : 1 <= d <= 9 -> digit d <> "0"%char.
Proof.
  intros H E. unfold digit in E. rewrite Z.mod_small in E by lia.
  apply (f_equal nat_of_ascii) in E.
  rewrite nat_ascii_embedding in E by lia.
  change (nat_of_ascii "0") with 48%nat in E. lia.
Qed.

(** The numeral of a positive number starts with a digit from 1 to 9. *)
Lemma first_char_dec_go_top (fuel : nat) : forall n acc,
  0 < n < 2 ^ Z.of_nat (S fuel) ->
  exists d, 1 <= d <= 9 /\ first_char (dec_go fuel n acc) = Some (digit d).
Proof.
  induction fuel as [|fuel IH]; intros n acc Hn; cbn [dec_go].
  - exists n. change (2 ^ Z.of_nat 1) with 2 in Hn. split; [lia | reflexivity].
  - pose proof (Z.div_mod n 10 ltac:(lia)) as D.
    pose proof (Z.mod_pos_bound n 10 ltac:(lia)) as B.
    destruct (n / 10 =? 0) eqn:E.
    + apply Z.eqb_eq in E. exists n. split; [lia | reflexivity].
    + apply Z.eqb_neq in E. apply IH.
      assert (0 <= n / 10) by (apply Z.div_pos; lia).
      split; [lia|]. apply Z.div_lt_upper_bound; [lia|].
      rewrite (Nat2Z.inj_succ (S fuel)), Z.pow_succ_r in Hn by lia. lia.
Qed.

Lemma dec_numeral (n : Z) : 0 <= n -> numeral n (dec n).
Proof.
  intros Hn. split; [apply all_digits_dec|]. split; [apply dec_nonempty|].
  split; [|now apply parse_dec].
  destruct (Z.eq_dec n 0) as [-> | Hz]; [now left | right].
  destruct (first_char_dec_go_top (Z.to_nat (Z.log2 n)) n "") as (d & Hd & E).
  { split; [lia|]. rewrite Nat2Z.inj_succ, Z2Nat.id by apply Z.log2_nonneg.
    apply Z.log2_spec. lia. }
  unfold dec. rewrite E. intros [= H]. now apply (digit_not_zero d).
Qed.

Lemma str_int_text (z : Z) : int_text z (str_int z).
Proof.
  unfold int_text, str_int. destruct (z <? 0) eqn:E.
  - apply Z.ltb_lt in E. exists (dec (- z)). split; [reflexivity|].
    replace (Z.abs z) with (- z) by lia. apply dec_numeral. lia.
  - apply Z.ltb_ge in E. exists (dec z). split; [reflexivity|].
    replace (Z.abs z) with z by lia. now apply dec_numeral.
Qed.

Lemma two_digits_group (v : Z) : two_digit_group v (Clock.two_digits v).
Proof.
  split; [reflexivity|]. split.
  - unfold Clock.two_digits. cbn [all_digits]. now rewrite !is_digit_digit.
  - unfold Clock.two_digits. cbn [parse_digits]. rewrite !digit_value_digit.
    change 100 with (10 * 10). rewrite Z.rem_mul_r by lia. lia.
Qed.

Lemma two_digits_group_mod (v : Z) :
  two_digit_group v (Clock.two_digits (v mod 100)).
Proof.
  destruct (two_digits_group (v mod 100)) as (L & D & P).
  split; [exact L|]. split; [exact D|].
  rewrite P. apply Z.mod_mod. lia.
Qed.

Lemma timestamp_text_of (t : Clock.struct_time) : timestamp_text t (timestamp_of t).
Proof.
  exists (Clock.two_digits (Clock.tm_year t mod 100)),
         (Clock.two_digits (Clock.tm_mon t)), (Clock.two_digits (Clock.tm_mday t)),
         (Clock.two_digits (Clock.tm_hour t)), (Clock.two_digits (Clock.tm_min t)),
         (Clock.two_digits (Clock.tm_sec t)).
  split; [reflexivity|].
  split; [apply two_digits_group_mod|].
  repeat split; apply two_digits_group.
Qed.

(** On a tie the rounded quotient is even. *)
Lemma round_half_even_tie (num den : Z) :
  0 < den ->
  Z.abs (2 * num - 2 * round_half_even num den * den) = den ->
  Z.even (round_half_even num den) = true.
Proof.
  intros Hd. unfold round_half_even.
  pose proof (Z.div_mod num den ltac:(lia)) as E.
  pose proof (Z.mod_pos_bound num den Hd) as B.
  destruct (2 * (num mod den) <? den) eqn:E1;
    [apply Z.ltb_lt in E1; nia|apply Z.ltb_ge in E1].
  destruct (den <? 2 * (num mod den)) eqn:E2;
    [apply Z.ltb_lt in E2; nia|apply Z.ltb_ge in E2].
  destruct (Z.even (num / den)) eqn:Ev; intros _; [exact Ev|].
  rewrite Z.add_1_r, Z.even_succ, <- Z.negb_even, Ev. reflexivity.
Qed.

Lemma round_half_even_nearest_even (num den : Z) :
  0 < den -> nearest_even num den (round_half_even num den).
Proof.
  intros Hd. split; [now apply round_half_even_nearest | now apply round_half_even_tie].
Qed.

(** The rounded quotient does not pass an integer above the quotient. *)
Lemma round_half_even_le (num den K : Z) :
  0 < den -> num < K * den -> round_half_even num den <= K.
Proof.
  intros Hd Hk. unfold round_half_even.
  assert (num / den < K) by (apply Z.div_lt_upper_bound; lia).
  repeat match goal with |- context [if ?b then _ else _] => destruct b end; lia.
Qed.

Lemma scaled_nearest_even (m : positive) (e : Z) :
  nearest_even (Z.pos m * 2 ^ Z.max e 0 * 10000) (2 ^ Z.max (- e) 0) (scaled m e 4).
Proof.
  unfold scaled. change (10 ^ Z.of_nat 4) with 10000.
  destruct (0 <=? e) eqn:E.
  - apply Z.leb_le in E. rewrite (Z.max_l e 0), (Z.max_r (- e) 0) by lia.
    change (2 ^ 0) with 1. split; [lia|]. lia.
  - apply Z.leb_gt in E. rewrite (Z.max_r e 0), (Z.max_l (- e) 0) by lia.
    change (2 ^ 0) with 1. rewrite Z.mul_1_r.
    apply round_half_even_nearest_even. apply Z.pow_pos_nonneg; lia.
Qed.

Lemma scaled_le (m : positive) (e K : Z) :
  Z.pos m * 2 ^ Z.max e 0 < K * 2 ^ Z.max (- e) 0 ->
  scaled m e 4 <= K * 10000.
Proof.
  unfold scaled. change (10 ^ Z.of_nat 4) with 10000.
  destruct (0 <=? e) eqn:E.
  - apply Z.leb_le in E. rewrite (Z.max_l e 0), (Z.max_r (- e) 0) by lia.
    change (2 ^ 0) with 1. lia.
  - apply Z.leb_gt in E. rewrite (Z.max_r e 0), (Z.max_l (- e) 0) by lia.
    change (2 ^ 0) with 1. rewrite Z.mul_1_r. intros H.
    apply round_half_even_le; [apply Z.pow_pos_nonneg; lia | lia].
Qed.

Lemma parse_digits_zeros (k : nat) (s : string) :
  parse_digits (zeros k ++ s) 0 = parse_digits s 0.
Proof. induction k as [|k IH]; [reflexivity | exact IH]. Qed.


(** The four decimals of a number of ten-thousandths. *)
Lemma four_decimals (n : Z) :
  0 <= n ->
  let frac := zfill 4 (dec (n mod 10000)) in
  String.length frac = 4%nat /\ all_digits frac = true /\
  parse_digits frac 0 = n mod 10000.
Proof.
  intros Hn frac. subst frac.
  pose proof (Z.mod_pos_bound n 10000 ltac:(lia)) as Hm.
  split; [|split].
  - rewrite length_zfill.
    pose proof (length_dec_bound 3 (n mod 10000) Hm). lia.
  - apply all_digits_zfill, all_digits_dec.
  - unfold zfill. rewrite parse_digits_zeros. apply parse_dec. lia.
Qed.

Lemma fixed4_text_finite (sg : bool) (m : positive) (e : Z) :
  fixed4_text (S754_finite sg m e) (fixed_SF (S754_finite sg m e) 4).
Proof.
  cbn [fixed4_text fixed_SF]. unfold fixed_digits.
  change (10 ^ Z.of_nat 4) with 10000.
  pose proof (scaled_nonneg m e 4) as HN.
  destruct (four_decimals (scaled m e 4) HN) as (L & D & P).
  exists (dec (scaled m e 4 / 10000)), (zfill 4 (dec (scaled m e 4 mod 10000))),
         (scaled m e 4).
  split; [destruct sg; reflexivity|].
  split; [apply scaled_nearest_even|].
  split; [apply dec_numeral, Z.div_pos; lia|].
  auto.
Qed.

Lemma fixed4_text_SF (x : spec_float) : fixed4_text x (fixed_SF x 4).
Proof.
  destruct x as [s | s | | s m e]; [| | |apply fixed4_text_finite];
    try destruct s; reflexivity.
Qed.

Lemma fixed4_text_fixed (f : float) : fixed4_text (Prim2SF f) (fixed f 4).
Proof. apply fixed4_text_SF. Qed.

(** The line of the layout is the record of its columns. *)
Lemma layout_record (t : Clock.struct_time) (status id : Z) (x : spec_float)
    (kind : ascii) (info : string) :
  record_text t status x kind id info
    (layout (timestamp_of t) status (fixed_SF x 4) kind id info).
Proof.
  exists (timestamp_of t), (str_int status), (fixed_SF x 4), (str_int id).
  split.
  - unfold layout. rewrite !rjust_blanks, !append_assoc. reflexivity.
  - split; [apply timestamp_text_of|]. split; [apply str_int_text|].
    split; [apply fixed4_text_SF | apply str_int_text].
Qed.

(** A request time within [ten_columns] has a text of at most ten
    characters. *)
Lemma length_fixed_ten_columns (x : spec_float) :
  ten_columns x -> (String.length (fixed_SF x 4) <= 10)%nat.
Proof.
  destruct x as [s | s | | s m e];
    [intros _; try destruct s; vm_compute; lia ..|].
  cbn [ten_columns fixed_SF]. intros H. unfold fixed_digits.
    change (10 ^ Z.of_nat 4) with 10000.
    pose proof (scaled_nonneg m e 4) as HN.
    destruct (four_decimals (scaled m e 4) HN) as (L & _ & _).
    rewrite !length_append. cbn [String.length]. rewrite L.
    apply scaled_le in H.
    assert (Hq : 0 <= scaled m e 4 / 10000) by (apply Z.div_pos; lia).
    destruct s; cbn [sign_str String.length].
    + assert (B : scaled m e 4 / 10000 < 10 ^ Z.of_nat 4).
      { change (10 ^ Z.of_nat 4) with 10000.
        apply Z.div_lt_upper_bound; lia. }
      pose proof (length_dec_bound 3 _ (conj Hq B)). lia.
    + assert (B : scaled m e 4 / 10000 < 10 ^ Z.of_nat 5).
      { change (10 ^ Z.of_nat 5) with 100000.
        apply Z.div_lt_upper_bound; lia. }
      pose proof (length_dec_bound 4 _ (conj Hq B)). lia.
Qed.

(** *** The columns determine the text *)

Lemma parse_digits_shift (s : string) : forall v,
  parse_digits s v = v * 10 ^ Z.of_nat (String.length s) + parse_digits s 0.
Proof.
  induction s as [|c s IH]; intros v; cbn [parse_digits String.length].
  - change (10 ^ Z.of_nat 0) with 1. lia.
  - rewrite (IH (10 * v + digit_value c)), (IH (10 * 0 + digit_value c)).
    rewrite Nat2Z.inj_succ, Z.pow_succ_r by lia. lia.
Qed.

Lemma digit_value_range (c : ascii) :
  is_digit c = true -> 0 <= digit_value c <= 9.
Proof.
  unfold is_digit, digit_value. intros H.
  apply andb_true_iff in H as [H1 H2].
  apply Nat.leb_le in H1, H2. lia.
Qed.

Lemma digit_value_inj (a b : ascii) : digit_value a = digit_value b -> a = b.
Proof.
  unfold digit_value. intros H.
  rewrite <- (ascii_nat_embedding a), <- (ascii_nat_embedding b).
  f_equal. lia.
Qed.

Lemma parse_digits_range (s : string) :
  all_digits s = true -> 0 <= parse_digits s 0 < 10 ^ Z.of_nat (String.length s).
Proof.
  induction s as [|c s IH]; cbn [all_digits parse_digits String.length]; intros H.
  - change (10 ^ Z.of_nat 0) with 1. lia.
  - apply andb_true_iff in H as [Hc Hs].
    pose proof (digit_value_range c Hc). specialize (IH Hs).
    rewrite parse_digits_shift, Nat2Z.inj_succ, Z.pow_succ_r by lia. nia.
Qed.

(** Two texts of digits of the same length and value are the same. *)
Lemma parse_digits_inj (s1 : string) : forall s2,
  all_digits s1 = true -> all_digits s2 = true ->
  String.length s1 = String.length s2 ->
  parse_digits s1 0 = parse_digits s2 0 -> s1 = s2.
Proof.
  induction s1 as [|a s1 IH]; intros [|b s2] H1 H2 L P;
    try discriminate; [reflexivity|].
  cbn [all_digits parse_digits String.length] in *.
  apply andb_true_iff in H1 as [Ha H1]. apply andb_true_iff in H2 as [Hb H2].
  injection L as L.
  pose proof (digit_value_range a Ha). pose proof (digit_value_range b Hb).
  pose proof (parse_digits_range s1 H1) as R1.
  pose proof (parse_digits_range s2 H2) as R2.
  rewrite (parse_digits_shift s1), (parse_digits_shift s2), <- L in P.
  rewrite <- L in R2.
  assert (E : digit_value a = digit_value b) by nia.
  f_equal; [now apply digit_value_inj|].
  apply IH; auto. nia.
Qed.

(** A numeral without a leading zero is at least the power of ten of its
    length. *)
Lemma parse_digits_leading (s : string) :
  all_digits s = true -> s <> "" -> first_char s <> Some "0"%char ->
  10 ^ Z.of_nat (String.length s - 1) <= parse_digits s 0.
Proof.
  destruct s as [|c s]; [congruence|]. intros H _ Hc.
  cbn [all_digits parse_digits String.length first_char] in *.
  apply andb_true_iff in H as [Hd Hs].
  pose proof (digit_value_range c Hd).
  assert (digit_value c <> 0).
  { intros E. apply Hc. f_equal. apply digit_value_inj. rewrite E. reflexivity. }
  pose proof (parse_digits_range s Hs).
  rewrite parse_digits_shift. replace (S (String.length s) - 1)%nat with (String.length s) by lia.
  nia.
Qed.

Lemma numeral_unique (n : Z) (s1 s2 : string) :
  numeral n s1 -> numeral n s2 -> s1 = s2.
Proof.
  intros (D1 & N1 & C1 & P1) (D2 & N2 & C2 & P2).
  assert (Z0 : forall s, all_digits s = true -> s <> "" ->
                first_char s <> Some "0"%char -> 0 < parse_digits s 0).
  { intros s D N C. pose proof (parse_digits_leading s D N C).
    assert (0 < 10 ^ Z.of_nat (String.length s - 1)) by (apply Z.pow_pos_nonneg; lia).
    lia. }
  destruct C1 as [-> | C1], C2 as [-> | C2]; [reflexivity | | |].
  - change (parse_digits "0" 0) with 0 in P1. specialize (Z0 s2 D2 N2 C2). lia.
  - change (parse_digits "0" 0) with 0 in P2. specialize (Z0 s1 D1 N1 C1). lia.
  - apply parse_digits_inj; auto; [|congruence].
    pose proof (parse_digits_leading s1 D1 N1 C1) as L1.
    pose proof (parse_digits_leading s2 D2 N2 C2) as L2.
    pose proof (parse_digits_range s1 D1) as R1.
    pose proof (parse_digits_range s2 D2) as R2.
    rewrite P1 in *. rewrite P2 in *.
    destruct (Nat.lt_trichotomy (String.length s1) (String.length s2))
      as [Hlt | [Heq | Hgt]]; [exfalso | exact Heq | exfalso].
    + assert (10 ^ Z.of_nat (String.length s1) <= 10 ^ Z.of_nat (String.length s2 - 1))
        by (apply Z.pow_le_mono_r; lia). lia.
    + assert (10 ^ Z.of_nat (String.length s2) <= 10 ^ Z.of_nat (String.length s1 - 1))
        by (apply Z.pow_le_mono_r; lia). lia.
Qed.

Lemma int_text_unique (z : Z) (s1 s2 : string) :
  int_text z s1 -> int_text z s2 -> s1 = s2.
Proof.
  intros (d1 & -> & H1) (d2 & -> & H2). f_equal. now apply (numeral_unique (Z.abs z)).
Qed.

Lemma two_digit_group_unique (v : Z) (s1 s2 : string) :
  two_digit_group v s1 -> two_digit_group v s2 -> s1 = s2.
Proof.
  intros (L1 & D1 & P1) (L2 & D2 & P2).
  apply parse_digits_inj; auto; congruence.
Qed.

Lemma timestamp_text_unique (t : Clock.struct_time) (s1 s2 : string) :
  timestamp_text t s1 -> timestamp_text t s2 -> s1 = s2.
Proof.
  intros (y1 & m1 & d1 & H1 & M1 & S1 & -> & Ay & Am & Ad & AH & AM & AS)
         (y2 & m2 & d2 & H2 & M2 & S2 & -> & By & Bm & Bd & BH & BM & BS).
  rewrite (two_digit_group_unique _ _ _ Ay By), (two_digit_group_unique _ _ _ Am Bm),
    (two_digit_group_unique _ _ _ Ad Bd), (two_digit_group_unique _ _ _ AH BH),
    (two_digit_group_unique _ _ _ AM BM), (two_digit_group_unique _ _ _ AS BS).
  reflexivity.
Qed.

Lemma nearest_even_unique (num den N1 N2 : Z) :
  0 < den -> nearest_even num den N1 -> nearest_even num den N2 -> N1 = N2.
Proof.
  intros Hd (A1 & T1) (A2 & T2).
  assert (H : N2 = N1 \/ N2 = N1 + 1 \/ N1 = N2 + 1) by nia.
  destruct H as [H | [H | H]]; [auto | exfalso | exfalso]; subst.
  - assert (E1 : Z.abs (2 * num - 2 * N1 * den) = den) by nia.
    assert (E2 : Z.abs (2 * num - 2 * (N1 + 1) * den) = den) by nia.
    specialize (T1 E1). specialize (T2 E2).
    rewrite Z.add_1_r, Z.even_succ, <- Z.negb_even, T1 in T2. discriminate.
  - assert (E1 : Z.abs (2 * num - 2 * (N2 + 1) * den) = den) by nia.
    assert (E2 : Z.abs (2 * num - 2 * N2 * den) = den) by nia.
    specialize (T1 E1). specialize (T2 E2).
    rewrite Z.add_1_r, Z.even_succ, <- Z.negb_even, T2 in T1. discriminate.
Qed.

Lemma fixed4_text_unique (x : spec_float) (s1 s2 : string) :
  fixed4_text x s1 -> fixed4_text x s2 -> s1 = s2.
Proof.
  destruct x as [s | s | | s m e]; cbn [fixed4_text]; try congruence.
  intros (i1 & f1 & N1 & -> & R1 & I1 & L1 & D1 & P1)
         (i2 & f2 & N2 & -> & R2 & I2 & L2 & D2 & P2).
  assert (N1 = N2) as <-.
  { eapply nearest_even_unique; [|exact R1|exact R2].
    apply Z.pow_pos_nonneg; lia. }
  rewrite (numeral_unique _ _ _ I1 I2).
  rewrite (parse_digits_inj f1 f2) by congruence.
  reflexivity.
Qed.

(** The columns of a record determine its text. *)
Lemma record_text_unique (t : Clock.struct_time) (status : Z) (x : spec_float)
    (kind : ascii) (id : Z) (info : string) (l1 l2 : string) :
  record_text t status x kind id info l1 ->
  record_text t status x kind id info l2 -> l1 = l2.
Proof.
  intros (ts1 & a1 & b1 & c1 & -> & T1 & A1 & B1 & C1)
         (ts2 & a2 & b2 & c2 & -> & T2 & A2 & B2 & C2).
  rewrite (timestamp_text_unique _ _ _ T1 T2), (int_text_unique _ _ _ A1 A2),
    (fixed4_text_unique _ _ _ B1 B2), (int_text_unique _ _ _ C1 C2).
  reflexivity.
Qed.

End RecordFacts.

(** * The claims *)

(** ** Activation *)

(** Activation with a section that names a file base: the sink is set,
    one record is emitted, the three handlers are registered. *)
Lemma start_timelogging_configured
    (product_config : gmap string (gmap string string))
    (config : gmap string string) (filebase : string) (w : world) :
  product_config !! "timelogging" = Some config ->
  config !! "filebase" = Some filebase ->
  let l := if String.eqb filebase STDERR then LFStr filebase
           else LFRotator {| rot_base := filebase; rot_lock := true |} in
  start_timelogging product_config w =
  (Return tt,
   emit (ProvideHandler Sub_failure)
     (emit (ProvideHandler Sub_success)
        (emit (ProvideHandler Sub_start)
           (emit (emitted l (layout (now_text w) 0 "0.0000" "0" 0 "restarted"))
              (with_logfile (Some l) w))))).
Proof.
  intros Hpc Hfb l. unfold start_timelogging. rewrite Hpc.
  unfold config_getitem. rewrite Hfb. mstep.
  assert (Hl : forall w0, _logfile w0 = Some l -> configured l ->
            _log "0" 0 0 (VInt 0) "restarted" w0 =
            (Return tt, emit (emitted l (layout (now_text w0) 0 "0.0000" "0" 0 "restarted")) w0)).
  { intros w0 H0 Hc. apply (_log_configured "0" 0 0 (VInt 0)); auto. }
  assert (Hc : configured l).
  { subst l. destruct (String.eqb filebase STDERR) eqn:E; cbn; [|exact I].
    now apply String.eqb_eq. }
  destruct (String.eqb filebase STDERR) eqn:E; subst l; unfold Rotator_new;
    mstep; (rewrite Hl; [| reflexivity | exact Hc]);
    unfold provideHandler; mstep; reflexivity.
Qed.

(** C1: activation with a [timelogging] section that names a
    [filebase] sets the sink, then emits exactly one record, then registers
    the three handlers, in this order and with nothing else.  The record has
    info "restarted", status 0, request time 0 and request id 0; its kind
    column holds the character "0", as every field but the timestamp and the
    info does, and not "+". *)
Theorem C1_restart_marker (product_config : gmap string (gmap string string))
    (config : gmap string string) (filebase : string) (w : world) :
  product_config !! "timelogging" = Some config ->
  config !! "filebase" = Some filebase ->
  let l := if String.eqb filebase STDERR then LFStr filebase
           else LFRotator {| rot_base := filebase; rot_lock := true |} in
  exists w',
    start_timelogging product_config w = (Return tt, w') /\
    _logfile w' = Some l /\
    _state w' = _state w /\
    trace w' =
      (trace w ++
       [emitted l (layout (now_text w) 0 "0.0000" "0" 0 "restarted");
        ProvideHandler Sub_start; ProvideHandler Sub_success;
        ProvideHandler Sub_failure])%list.
Proof.
  intros Hpc Hfb l.
  rewrite (start_timelogging_configured _ _ _ w Hpc Hfb). fold l.
  eexists. split; [reflexivity|].
  cbn. rewrite <- !app_assoc. auto.
Qed.

Lemma C1_restart_marker_witness :
  exists w',
    start_timelogging Sample.file_config Sample.fresh = (Return tt, w') /\
    _logfile w' = Some (LFRotator Sample.rotator) /\
    _state w' = _state Sample.fresh /\
    trace w' =
      (trace Sample.fresh ++
       [emitted (LFRotator Sample.rotator)
          (layout (now_text Sample.fresh) 0 "0.0000" "0" 0 "restarted");
        ProvideHandler Sub_start; ProvideHandler Sub_success;
        ProvideHandler Sub_failure])%list.
Proof.
  apply (C1_restart_marker Sample.file_config
           {[ "filebase" := "/var/log/timelog" ]} "/var/log/timelog" Sample.fresh);
    vm_compute; reflexivity.
Defined.

(** C1 with kind "+" does not hold: on file activation of a fresh process
    the one record written has "0" in its kind column, so it is not the
    record with kind "+". *)
Lemma C1_kind_is_not_plus :
  trace (snd (start_timelogging Sample.file_config Sample.fresh)) =
    [RotatorWrite Sample.rotator
       ("260102T030405   0     0.0000 0      0 restarted" ++ newline);
     ProvideHandler Sub_start; ProvideHandler Sub_success;
     ProvideHandler Sub_failure] /\
  "260102T030405   0     0.0000 0      0 restarted" ++ newline
    <> layout "260102T030405" 0 "0.0000" "+" 0 "restarted".
Proof. split; [vm_compute; reflexivity | vm_compute; discriminate]. Qed.

(** ** The request-timing table *)

(** C5: a terminal call (nonzero status) for a request id without an open
    entry raises [KeyError] to its caller; the world is exactly as before:
    no record, no table entry, the lock released.  The handlers that make
    the call let the error through. *)
Theorem C5_terminal_without_start (rq : request) (status : Z) (w : world) :
  _lock w = false -> status <> 0 ->
  _state w !! ITicket_id rq = None ->
  account_request rq status w = (Raise (KeyError (VInt (ITicket_id rq))), w) /\
  (forall exc (RC : ResponseClass exc) (e : exc),
     handle_request_failure (IPubFailure rq e true) w =
     (Raise (KeyError (VInt (ITicket_id rq))), w)) /\
  (forall exc (RC : ResponseClass exc),
     resolve_status (dict_of w (response rq)) = Ok status ->
     handle_request_success (IPubSuccess (exc:=exc) rq) w =
     (Raise (KeyError (VInt (ITicket_id rq))), w)).
Proof.
  intros Hl Hs He. repeat split.
  - now apply account_request_miss.
  - intros exc RC e. unfold handle_request_failure.
    apply account_request_miss; auto; lia.
  - intros exc RC Hr. rewrite handle_request_success_resolved.
    cbn [event_request]. rewrite Hr.
    destruct (status =? 0) eqn:E; [apply Z.eqb_eq in E; contradiction|].
    now apply account_request_miss.
Qed.

Lemma C5_terminal_without_start_witness :
  account_request Sample.req 200 (Sample.active Sample.ok_dict) =
    (Raise (KeyError (VInt 7)), Sample.active Sample.ok_dict).
Proof.
  refine (proj1 (C5_terminal_without_start Sample.req 200
                   (Sample.active Sample.ok_dict) _ _ _));
    [reflexivity | lia | reflexivity].
Defined.

(** C6: a start call for a request id that already has an open entry
    returns normally: the entry now holds the new clock reading, the earlier
    start time is gone, the other entries are as before, and an ordinary
    start record is written. *)
Theorem C6_duplicate_start_overwrites (rq : request) (t_old : float)
    (l : logfile) (w : world) :
  _lock w = false -> _logfile w = Some l -> configured l ->
  _state w !! ITicket_id rq = Some t_old ->
  exists w',
    account_request rq 0 w = (Return tt, w') /\
    _state w' = <[ITicket_id rq := Clock.time (clock w)]> (_state w) /\
    _state w' !! ITicket_id rq = Some (Clock.time (clock w)) /\
    trace w' =
      (trace w ++
       [emitted l (layout (now_text w) 0 "0.0000" "+" (ITicket_id rq) (IInfo_str rq))])%list.
Proof.
  intros Hl Hf Hc _. rewrite account_request_start by exact Hl.
  rewrite (_log_configured "+" 0 _ (VInt 0) _ l); auto.
  eexists. split; [reflexivity|]. cbn. rewrite lookup_insert_eq. auto.
Qed.

Lemma C6_duplicate_start_overwrites_witness :
  exists w',
    account_request Sample.req 0 (Sample.serving Sample.ok_dict) = (Return tt, w') /\
    _state w' = <[7 := 100.5%float]> (_state (Sample.serving Sample.ok_dict)) /\
    _state w' !! 7 = Some 100.5%float /\
    trace w' =
      [emitted (LFRotator Sample.rotator)
         (layout (now_text (Sample.serving Sample.ok_dict)) 0 "0.0000" "+" 7 "GET /x")].
Proof.
  apply (C6_duplicate_start_overwrites Sample.req 99.25%float
           (LFRotator Sample.rotator) (Sample.serving Sample.ok_dict));
    [reflexivity | reflexivity | exact I | reflexivity].
Defined.

(** ** The handlers *)

(** C3: a failure event with the retry flag set accounts the request with
    status 390 whatever the exception class and whatever the response
    holds: with an open entry the one record written has status 390, and
    without one the call raises and writes nothing. *)
Theorem C3_retry_sentinel {exc} {RC : ResponseClass exc} (rq : request) (e : exc)
    (l : logfile) (w : world) :
  _lock w = false -> _logfile w = Some l -> configured l ->
  handle_request_failure (IPubFailure rq e true) w =
  match _state w !! ITicket_id rq with
  | Some t0 =>
      (Return tt,
       emit (emitted l (layout (now_text w) 390
                          (PyFloat.fixed (Clock.time (clock w) - t0)%float 4)
                          "-" (ITicket_id rq) (IInfo_str rq)))
         (with_state (delete (ITicket_id rq)) w))
  | None => (Raise (KeyError (VInt (ITicket_id rq))), w)
  end.
Proof.
  intros Hl Hf Hc. unfold handle_request_failure.
  destruct (_state w !! ITicket_id rq) as [t0|] eqn:E.
  - rewrite (account_request_end rq 390 t0) by (auto; lia).
    rewrite (_log_configured "-" 390 _ _ _ l); eauto.
  - apply account_request_miss; auto; lia.
Qed.

Lemma C3_retry_sentinel_witness :
  handle_request_failure (IPubFailure Sample.req HTTPResponse.NotFound true)
    (Sample.serving Sample.ok_dict) =
  (Return tt,
   emit (emitted (LFRotator Sample.rotator)
           (layout (now_text (Sample.serving Sample.ok_dict)) 390
              (PyFloat.fixed (100.5 - 99.25)%float 4) "-" 7 "GET /x"))
     (with_state (delete 7) (Sample.serving Sample.ok_dict))).
Proof.
  apply (C3_retry_sentinel Sample.req HTTPResponse.NotFound
           (LFRotator Sample.rotator) (Sample.serving Sample.ok_dict));
    [reflexivity | reflexivity | exact I].
Defined.

(** C4: on a success event the status is the answer of the optional
    [IStatus] adapter, or the raw status of the response when there is no
    adapter; when it is zero the handler fails its assertion and leaves the
    world untouched (no record, no table change), and otherwise it accounts
    the request with that status. *)
Theorem C4_zero_status_asserts {exc} {RC : ResponseClass exc} (ev : event exc)
    (n : Z) (w : world) :
  resolve_status (dict_of w (response (event_request ev))) = Ok n ->
  handle_request_success ev w =
  if n =? 0 then (Raise AssertionError, w)
  else account_request (event_request ev) n w.
Proof.
  intros H. rewrite handle_request_success_resolved, H. reflexivity.
Qed.

Lemma C4_zero_status_asserts_witness :
  handle_request_success (IPubSuccess (exc:=HTTPResponse.exc) Sample.req)
    (Sample.serving Sample.zero_dict) =
  (Raise AssertionError, Sample.serving Sample.zero_dict).
Proof.
  apply (C4_zero_status_asserts (IPubSuccess (exc:=HTTPResponse.exc) Sample.req) 0
           (Sample.serving Sample.zero_dict)).
  vm_compute. reflexivity.
Defined.

(** ** The record format *)

(** C7: [_log] renders every record as
    [<timestamp> <status:3d> <request_time:10.4f> <kind:1c> <request_id:6d> <info>]
    and a newline, and a file sink receives the line unchanged.  Column by
    column: the timestamp is the thirteen characters [yyMMddTHHmmss], six
    groups of two digits; the status and the request id are their decimal
    numerals (a minus sign when negative, no leading zeros), padded on the
    left with blanks to 3 and 6 characters and kept whole when wider; the
    request time is padded to 10 characters and is, for a finite value, the
    sign of the value, the numeral of the integer part, a point and exactly
    four decimals, which count the ten-thousandths nearest to the value
    (the even count on a tie), and [nan], [inf] or [-inf] otherwise; the
    integer [0] of a start record reads [0.0000]; then the one kind
    character, the request id, info and the newline.  These columns leave
    no other line for the given values.  With status 200,
    request time 1.2345, kind "-", request id 7 and info "GET /x" the line
    is the timestamp followed by [ 200     1.2345 -      7 GET /x] and the
    newline; a request time of -0.03125 reads [-0.0312], and the request id
    123456789 is written in full. *)
Theorem C7_record_layout (t : Clock.struct_time) (status id : Z) (rt : float)
    (kind : ascii) (info : string) (r : Rotator) (w : world) :
  let ts := Clock.strftime _log_time_format t in
  let line := layout ts status (PyFloat.fixed rt 4) kind id info in
  log_string ts (String kind "") status id (VFloat rt) info = Ok line /\
  log_string ts (String kind "") status id (VInt 0) info =
    Ok (layout ts status "0.0000" kind id info) /\
  ts = timestamp_of t /\ String.length ts = 13%nat /\
  PyStr.rjust 3 (PyStr.str_int status) =
    PyStr.spaces (3 - String.length (PyStr.str_int status)) ++ PyStr.str_int status /\
  String.length (PyStr.rjust 3 (PyStr.str_int status)) =
    Nat.max 3 (String.length (PyStr.str_int status)) /\
  PyStr.rjust 6 (PyStr.str_int id) =
    PyStr.spaces (6 - String.length (PyStr.str_int id)) ++ PyStr.str_int id /\
  String.length (PyStr.rjust 6 (PyStr.str_int id)) =
    Nat.max 6 (String.length (PyStr.str_int id)) /\
  PyStr.int_of_str (PyStr.str_int status) = status /\
  PyStr.int_of_str (PyStr.str_int id) = id /\
  String.length (PyStr.rjust 10 (PyFloat.fixed rt 4)) =
    Nat.max 10 (String.length (PyFloat.fixed rt 4)) /\
  PyStr.last_char line = Some (ascii_of_nat 10) /\
  (let w' := with_clock {| Clock.time := Clock.time (clock w); Clock.localtime := t |}
               (with_logfile (Some (LFRotator r)) w) in
   _log (String kind "") status id (VFloat rt) info w' =
   (Return tt, emit (RotatorWrite r line) w')) /\
  record_text t status (Prim2SF rt) kind id info line /\
  (forall l, record_text t status (Prim2SF rt) kind id info l -> l = line) /\
  record_text t status (S754_zero false) kind id info
    (layout ts status "0.0000" kind id info) /\
  timestamp_text t ts /\
  int_text status (PyStr.str_int status) /\ int_text id (PyStr.str_int id) /\
  fixed4_text (Prim2SF rt) (PyFloat.fixed rt 4) /\
  PyStr.rjust 3 (PyStr.str_int status) =
    blanks (3 - String.length (PyStr.str_int status)) ++ PyStr.str_int status /\
  PyStr.rjust 10 (PyFloat.fixed rt 4) =
    blanks (10 - String.length (PyFloat.fixed rt 4)) ++ PyFloat.fixed rt 4 /\
  PyStr.rjust 6 (PyStr.str_int id) =
    blanks (6 - String.length (PyStr.str_int id)) ++ PyStr.str_int id /\
  log_string "<ts>" "-" 200 7 (VFloat Sample.t_1_2345) "GET /x" =
    Ok ("<ts> 200     1.2345 -      7 GET /x" ++ newline) /\
  log_string "<ts>" "E" 404 123456789 (VFloat (-0x1p-5)) "" =
    Ok ("<ts> 404    -0.0312 E 123456789 " ++ newline) /\
  layout "<ts>" 200 (PyFloat.fixed Sample.t_1_2345 4) "-" 7 "GET /x" =
    "<ts> 200     1.2345 -      7 GET /x" ++ newline.
Proof.
  intros ts line. subst ts line. rewrite strftime_log_time_format.
  split; [apply (log_string_layout _ _ _ _ (VFloat rt)); eauto|].
  split; [apply (log_string_layout _ _ _ _ (VInt 0)); eauto|].
  split; [reflexivity|]. split; [reflexivity|].
  split; [reflexivity|]. split; [apply length_rjust|].
  split; [reflexivity|]. split; [apply length_rjust|].
  split; [apply int_of_str_int|]. split; [apply int_of_str_int|].
  split; [apply length_rjust|].
  split; [apply last_char_layout|].
  split.
  { cbn zeta.
    rewrite (_log_configured kind status id (VFloat rt) info (LFRotator r));
      [reflexivity | eauto | reflexivity | exact I]. }
  split; [apply layout_record|].
  split; [intros l Hl; apply (record_text_unique _ _ _ _ _ _ _ _ Hl), layout_record|].
  split; [apply (layout_record t status id (S754_zero false))|].
  split; [apply timestamp_text_of|].
  split; [apply str_int_text|]. split; [apply str_int_text|].
  split; [apply fixed4_text_fixed|].
  split; [apply rjust_blanks|]. split; [apply rjust_blanks|].
  split; [apply rjust_blanks|].
  split; [vm_compute; reflexivity|].
  split; vm_compute; reflexivity.
Qed.

(** ** Logger mode and no sink *)

(** C10: when [_logfile] is the string "/dev/stderr", [_log] hands the
    rendered line to the logger with its leading and trailing whitespace
    stripped and writes to no file; the message never begins or ends with
    whitespace, so it does not end with the newline the line itself ends
    with, and for a record without info it stops after the request id, the
    separator being gone as well.  When [_logfile] is [None], [_log] returns
    and leaves the world as it is. *)
Theorem C10_logger_mode (t : Clock.struct_time) (status id : Z) (rt : float)
    (kind : ascii) (info : string) (w : world) :
  let at_t := with_clock {| Clock.time := Clock.time (clock w); Clock.localtime := t |} in
  let ts := timestamp_of t in
  let line := layout ts status (PyFloat.fixed rt 4) kind id info in
  let msg := PyStr.strip line in
  (let w' := at_t (with_logfile (Some (LFStr STDERR)) w) in
   _log (String kind "") status id (VFloat rt) info w' =
   (Return tt, emit (LoggerInfo msg) w') /\
   _log (String kind "") status id (VInt 0) info w' =
   (Return tt,
    emit (LoggerInfo (PyStr.strip (layout ts status "0.0000" kind id info))) w')) /\
  match PyStr.first_char msg with
  | Some c => PyStr.isspace c = false
  | None => True
  end /\
  match PyStr.last_char msg with
  | Some c => PyStr.isspace c = false /\ c <> ascii_of_nat 10
  | None => True
  end /\
  PyStr.last_char line = Some (ascii_of_nat 10) /\
  PyStr.strip (layout ts status (PyFloat.fixed rt 4) kind id "") =
    layout_head ts status (PyFloat.fixed rt 4) kind id /\
  layout ts status (PyFloat.fixed rt 4) kind id "" =
    layout_head ts status (PyFloat.fixed rt 4) kind id ++ " " ++ newline /\
  (let w' := at_t (with_logfile None w) in
   _log (String kind "") status id (VFloat rt) info w' = (Return tt, w')) /\
  (let w' := snd (start_timelogging {[ "timelogging" := {[ "filebase" := STDERR ]} ]} w) in
   _logfile w' = Some (LFStr STDERR) /\
   trace w' =
     (trace w ++
      [LoggerInfo (PyStr.strip (layout (now_text w) 0 "0.0000" "0" 0 "restarted"));
       ProvideHandler Sub_start; ProvideHandler Sub_success;
       ProvideHandler Sub_failure])%list).
Proof.
  intros at_t ts line msg.
  split.
  { cbn zeta. subst at_t.
    rewrite (_log_configured kind status id (VFloat rt) info (LFStr STDERR));
      [| eauto | reflexivity | reflexivity].
    rewrite (_log_configured kind status id (VInt 0) info (LFStr STDERR));
      [| eauto | reflexivity | reflexivity].
    split; reflexivity. }
  destruct (strip_ends line) as [Hf Hl]. fold msg in Hf, Hl.
  split; [destruct (PyStr.first_char msg); auto|].
  split.
  { destruct (PyStr.last_char msg) as [c|]; [|exact I].
    specialize (Hl c eq_refl). split; [exact Hl|].
    intros ->. discriminate Hl. }
  split; [apply last_char_layout|].
  split; [apply strip_layout_no_info|].
  split; [apply layout_split|].
  split.
  { cbn zeta. subst at_t.
    rewrite (_log_rendered _ _ _ _ _ _ _
               (log_string_layout _ kind status id (VFloat rt) info
                  (or_intror (ex_intro _ rt eq_refl)))).
    reflexivity. }
  cbn zeta.
  rewrite (start_timelogging_configured _ {[ "filebase" := STDERR ]} STDERR w);
    [| apply lookup_singleton_eq | apply lookup_singleton_eq].
  cbn. rewrite <- !app_assoc. auto.
Qed.

(** ** Pairing of start and terminal events *)

(** C8: a start call for a request writes a record with status 0, request
    time 0 and kind "+" and opens the entry with its clock reading; after
    any later calls for other request ids, a terminal call for the request
    returns, writes a record with kind "-" whose request time is its own
    clock reading minus the clock reading of the start, and removes the
    entry from the table. *)
Theorem C8_pairing (rq : request) (status : Z) (start_clock end_clock : Clock.reading)
    (others : list call) (l : logfile) (w : world) :
  _lock w = false -> _logfile w = Some l -> configured l ->
  status <> 0 ->
  Forall (fun c => ITicket_id (call_request c) <> ITicket_id rq) others ->
  let id := ITicket_id rq in
  let w0 := with_clock start_clock w in
  exists w1,
    account_request rq 0 w0 = (Return tt, w1) /\
    trace w1 =
      (trace w ++ [emitted l (layout (now_text w0) 0 "0.0000" "+" id (IInfo_str rq))])%list /\
    _state w1 !! id = Some (Clock.time start_clock) /\
    let w2 := with_clock end_clock (run_calls others w1) in
    exists w3,
      account_request rq status w2 = (Return tt, w3) /\
      trace w3 =
        (trace w2 ++
         [emitted l (layout (now_text w2) status
                       (PyFloat.fixed (Clock.time end_clock - Clock.time start_clock)%float 4)
                       "-" id (IInfo_str rq))])%list /\
      _state w3 !! id = None /\
      (forall j, j <> id -> _state w3 !! j = _state w2 !! j).
Proof.
  intros Hl Hf Hc Hs Hall id w0.
  assert (Hl0 : _lock w0 = false) by exact Hl.
  rewrite account_request_start by exact Hl0.
  rewrite (_log_configured "+" 0 _ (VInt 0) _ l); auto.
  eexists. split; [reflexivity|].
  split; [reflexivity|].
  split; [cbn; apply lookup_insert_eq|].
  match goal with |- let w2 := with_clock _ (run_calls _ ?x) in _ =>
    set (w1 := x) end.
  intros w2.
  destruct (run_calls_frame others id w1) as (R1 & R2 & R3); [exact Hl | exact Hall |].
  assert (Hl2 : _lock w2 = false) by exact R1.
  assert (Hf2 : _logfile w2 = Some l) by (subst w2; cbn; rewrite R2; exact Hf).
  assert (He2 : _state w2 !! id = Some (Clock.time start_clock)).
  { subst w2. cbn. rewrite R3. subst w1. cbn. apply lookup_insert_eq. }
  rewrite (account_request_end rq status _ w2 Hl2 Hs He2).
  rewrite (_log_configured "-" status _ _ _ l); eauto.
  eexists. split; [reflexivity|].
  split; [reflexivity|].
  split; [cbn; apply lookup_delete_eq|].
  intros j Hj. cbn. now apply lookup_delete_ne.
Qed.

Lemma C8_pairing_witness :
  let w0 := with_clock (Sample.at_time 99.25) (Sample.active Sample.ok_dict) in
  exists w1,
    account_request Sample.req 0 w0 = (Return tt, w1) /\
    trace w1 =
      [emitted (LFRotator Sample.rotator)
         (layout (now_text w0) 0 "0.0000" "+" 7 "GET /x")] /\
    _state w1 !! 7 = Some 99.25%float /\
    let w2 := with_clock (Sample.at_time 100.5)
                (run_calls
                   [{| call_clock := Sample.at_time 100;
                       call_request := Sample.other_req; call_status := 0 |}] w1) in
    exists w3,
      account_request Sample.req 200 w2 = (Return tt, w3) /\
      trace w3 =
        (trace w2 ++
         [emitted (LFRotator Sample.rotator)
            (layout (now_text w2) 200 (PyFloat.fixed (100.5 - 99.25)%float 4)
               "-" 7 "GET /x")])%list /\
      _state w3 !! 7 = None /\
      (forall j, j <> 7 -> _state w3 !! j = _state w2 !! j).
Proof.
  apply (C8_pairing Sample.req 200 (Sample.at_time 99.25) (Sample.at_time 100.5)
           [{| call_clock := Sample.at_time 100;
               call_request := Sample.other_req; call_status := 0 |}]
           (LFRotator Sample.rotator) (Sample.active Sample.ok_dict));
    [reflexivity | reflexivity | exact I | lia |].
  repeat constructor. vm_compute. discriminate.
Defined.

(** ** The response around a failure *)

(** C2: when the failure handler of an event without retry returns
    normally, every attribute the response's instance dictionary
    had before the call is bound to the value it had before; the dictionary
    is the saved one laid over the one [setStatus] produced, and the
    instance dictionaries of other objects are untouched. *)
Theorem C2_restore_on_return {exc} {RC : ResponseClass exc} (rq : request)
    (e : exc) (w w' : world) :
  handle_request_failure (IPubFailure rq e false) w = (Return tt, w') ->
  let before := dict_of w (response rq) in
  let after := dict_of w' (response rq) in
  (forall k v, before !! k = Some v -> after !! k = Some v) /\
  after = before ∪ setStatus e before /\
  (forall l, l <> response rq -> heap w' !! l = heap w !! l).
Proof.
  intros H before after.
  rewrite handle_request_failure_no_retry in H.
  fold before in H.
  set (forced := with_heap (insert (response rq) (setStatus e before)) w) in H.
  assert (Hh := handle_request_success_heap (IPubFailure rq e false) forced).
  destruct (handle_request_success (IPubFailure rq e false) forced)
    as [[[]|x|] w2]; try discriminate.
  injection H as <-. cbn in Hh.
  assert (Ha : after = before ∪ setStatus e before).
  { subst after. apply dict_of_insert. }
  split; [|split; [exact Ha|]].
  - intros k v Hk. rewrite Ha. now apply lookup_union_Some_l.
  - intros l Hne. cbn. rewrite lookup_insert_ne by congruence.
    rewrite Hh. subst forced. cbn. now rewrite lookup_insert_ne by congruence.
Qed.

Lemma C2_restore_on_return_witness :
  let w := Sample.serving Sample.ok_dict in
  let w' := snd (handle_request_failure Sample.failure w) in
  let before := dict_of w 1 in
  let after := dict_of w' 1 in
  (forall k v, before !! k = Some v -> after !! k = Some v) /\
  after = before ∪ setStatus HTTPResponse.InternalError before /\
  (forall l, l <> 1%positive -> heap w' !! l = heap w !! l).
Proof.
  apply (C2_restore_on_return Sample.req HTTPResponse.InternalError
           (Sample.serving Sample.ok_dict)
           (snd (handle_request_failure Sample.failure (Sample.serving Sample.ok_dict)))).
  vm_compute. reflexivity.
Defined.

(** C2 does not hold on every exit path, nor for every attribute.  When
    the success handler raises (here: no entry is open for the request), the
    failure handler leaves through the exception and the response keeps the
    forced status and reason.  When the handler returns, an attribute
    [setStatus] created is still there: a response that had no [errmsg] of
    its own has one after. *)
Lemma C2_not_every_exit_path :
  (let w := Sample.active Sample.ok_dict in
   let w' := snd (handle_request_failure Sample.failure w) in
   fst (handle_request_failure Sample.failure w) = Raise (KeyError (VInt 7)) /\
   dict_of w 1 !! "errmsg" = Some (VStr "OK") /\
   dict_of w' 1 !! "errmsg" = Some (VStr "Internal Server Error") /\
   dict_of w 1 !! "status" = Some (VInt 200) /\
   dict_of w' 1 !! "status" = Some (VInt 500)) /\
  (let w := Sample.serving Sample.bare_dict in
   let w' := snd (handle_request_failure Sample.failure w) in
   fst (handle_request_failure Sample.failure w) = Return tt /\
   dict_of w 1 !! "errmsg" = None /\
   dict_of w' 1 !! "errmsg" = Some (VStr "Internal Server Error")).
Proof. vm_compute. repeat split; reflexivity. Qed.

(** ** Concurrent calls *)

Section ThreadFacts.
Import Threads.

Lemma lookup_update (l : list thread) (i j : nat) (t' tj : thread) :
  <[i := t']> l !! j = Some tj ->
  (j = i /\ tj = t') \/ (j <> i /\ l !! j = Some tj).
Proof.
  intros H. apply list_lookup_insert_Some in H as [(-> & -> & _) | (Hne & H)]; auto.
Qed.

Lemma lookup_updated (l : list thread) (i : nat) (t t' : thread) :
  l !! i = Some t -> <[i := t']> l !! i = Some t'.
Proof.
  intros H. apply list_lookup_insert_eq. now apply lookup_lt_Some in H.
Qed.

(** A step is a statement of an existing thread. *)
Lemma step_unfold (i : nat) (c c' : config) :
  step i c = Some c' ->
  exists t t',
    threads c !! i = Some t /\
    step_thread t (shared c) (origins c) (stores c) =
      Some (t', shared c', origins c', stores c') /\
    threads c' = <[i := t']> (threads c).
Proof.
  unfold step. destruct (threads c !! i) as [t|]; [|discriminate].
  destruct (step_thread _ _ _ _) as [[[[t' w'] g'] n']|] eqn:E; [|discriminate].
  intros [= <-]. exists t, t'. repeat split. exact E.
Qed.

Lemma reading_critical (p : pc) : reading p = true -> critical p = true.
Proof. destruct p; simpl; congruence. Qed.

(** Split a thread lookup after thread [i] was replaced. *)
Ltac split_lookup :=
  repeat match goal with
  | H : <[_ := _]> _ !! _ = Some _ |- _ =>
      apply lookup_update in H as [[-> ->] | [? H]]
  end.

(** *** Mutual exclusion is kept *)

Lemma lock_ok_same (c : config) (i : nat) (t t' : thread) (w' : world)
    (g' : gmap Z origin) (n' : nat) :
  lock_ok c -> threads c !! i = Some t ->
  critical (th_pc t') = critical (th_pc t) ->
  _lock w' = _lock (shared c) ->
  lock_ok {| shared := w'; threads := <[i := t']> (threads c);
             origins := g'; stores := n' |}.
Proof.
  intros [Hm Hh Hf] Ht Hc Hl. constructor; cbn; rewrite ?Hl.
  - intros a b ta tb Ha Hb Ca Cb. split_lookup; rewrite ?Hc in *; eauto.
  - intros H. destruct (Hh H) as (a & ta & Ha & Ca).
    destruct (decide (a = i)) as [-> | Hne].
    + exists i, t'. split; [eapply lookup_updated; eauto|].
      rewrite Hc. congruence.
    + exists a, ta. split; [|exact Ca]. now rewrite list_lookup_insert_ne.
  - intros H a ta Ha. split_lookup; rewrite ?Hc; eauto.
Qed.

Lemma lock_ok_acquire (c : config) (i : nat) (t t' : thread)
    (g' : gmap Z origin) (n' : nat) :
  lock_ok c -> threads c !! i = Some t ->
  _lock (shared c) = false -> critical (th_pc t') = true ->
  lock_ok {| shared := with_lock true (shared c); threads := <[i := t']> (threads c);
             origins := g'; stores := n' |}.
Proof.
  intros [Hm Hh Hf] Ht Hl Hc. constructor; cbn.
  - intros a b ta tb Ha Hb Ca Cb. split_lookup; auto;
      repeat match goal with
      | H : threads c !! _ = Some ?x, C : critical (th_pc ?x) = true |- _ =>
          rewrite (Hf Hl _ _ H) in C; discriminate
      end.
  - intros _. exists i, t'. split; [eapply lookup_updated; eauto | exact Hc].
  - discriminate.
Qed.

Lemma lock_ok_release (c : config) (i : nat) (t t' : thread) (w' : world)
    (g' : gmap Z origin) (n' : nat) :
  lock_ok c -> threads c !! i = Some t ->
  critical (th_pc t) = true -> critical (th_pc t') = false ->
  _lock w' = false ->
  lock_ok {| shared := w'; threads := <[i := t']> (threads c);
             origins := g'; stores := n' |}.
Proof.
  intros [Hm Hh Hf] Ht Hc Hc' Hl. constructor; cbn; rewrite ?Hl.
  - intros a b ta tb Ha Hb Ca Cb. split_lookup; auto; try congruence.
    eauto.
  - discriminate.
  - intros _ a ta Ha. split_lookup; [exact Hc'|].
    destruct (critical (th_pc ta)) eqn:E; [|reflexivity].
    exfalso. match goal with H : a <> i |- _ => apply H end. eauto.
Qed.

(** While thread [i] is in the critical section no other thread has an
    entry read and not yet deleted. *)
Lemma others_not_reading (c : config) (i j : nat) (t tj : thread) :
  lock_ok c -> threads c !! i = Some t -> critical (th_pc t) = true ->
  threads c !! j = Some tj -> j <> i -> reading (th_pc tj) = false.
Proof.
  intros [Hm _ _] Ht Hc Hj Hne.
  destruct (reading (th_pc tj)) eqn:E; [|reflexivity].
  exfalso. apply Hne. eapply Hm; eauto using reading_critical.
Qed.

(** *** The table invariant is kept *)

Lemma table_ok_same (c : config) (i : nat) (t : thread) (p' : pc) (w' : world) :
  table_ok c -> threads c !! i = Some t ->
  reading (th_pc t) = false -> reading p' = false ->
  _state w' = _state (shared c) ->
  table_ok {| shared := w'; threads := <[i := at_pc t p']> (threads c);
              origins := origins c; stores := stores c |}.
Proof.
  intros [Hd Hfr Hi Hs Hr Hx] Ht Rt Rp Hst. constructor; cbn; rewrite ?Hst; auto.
  - intros a ta o Ha So. split_lookup; [|eauto].
    cbn in *. rewrite Rp. specialize (Hs _ _ _ Ht So). now rewrite Rt in Hs.
  - intros a ta ct rt Ha Pa. split_lookup; [|eauto].
    cbn in Pa. subst p'. discriminate.
  - intros a b ta tb o Ha Hb Sa Sb. split_lookup; cbn in *; eauto.
Qed.

Lemma table_ok_read (c : config) (i : nat) (t : thread) (ct t0 : float) :
  lock_ok c -> table_ok c -> threads c !! i = Some t ->
  th_pc t = AtLookup ct -> _state (shared c) !! id_of t = Some t0 ->
  table_ok {| shared := shared c;
              threads := <[i := {| th_request := th_request t; th_status := th_status t;
                                   th_pc := AtDelete ct (ct - t0)%float;
                                   th_source := origins c !! id_of t |}]> (threads c);
              origins := origins c; stores := stores c |}.
Proof.
  intros HL [Hd Hfr Hi Hs Hr Hx] Ht Pt Et.
  assert (Ct : critical (th_pc t) = true) by (rewrite Pt; reflexivity).
  destruct (origins c !! id_of t) as [o|] eqn:Eo;
    [| apply Hd in Eo; congruence].
  assert (Hother : forall j tj, threads c !! j = Some tj -> j <> i ->
            th_source tj <> Some o).
  { intros j tj Hj Hne So. destruct (Hs _ _ _ Hj So) as [_ H].
    rewrite (others_not_reading c i j t tj HL Ht Ct Hj Hne) in H.
    now apply (H (id_of t)). }
  constructor; cbn; auto.
  - intros a ta o' Ha So. split_lookup; [|eauto].
    cbn in *. simplify_eq. split; [|exact Eo].
    intros n ->. eauto.
  - intros a ta ct' rt Ha Pa. split_lookup; [|eauto].
    cbn in *. simplify_eq. eauto.
  - intros a b ta tb o' Ha Hb Sa Sb. split_lookup; cbn in *; eauto.
    + simplify_eq. exfalso. eapply Hother; eauto.
    + simplify_eq. exfalso. eapply Hother; eauto.
Qed.

Lemma table_ok_delete (c : config) (i : nat) (t : thread) (ct rt : float) :
  lock_ok c -> table_ok c -> threads c !! i = Some t ->
  th_pc t = AtDelete ct rt ->
  table_ok {| shared := with_state (delete (id_of t)) (shared c);
              threads := <[i := at_pc t (AtRelease (VFloat rt))]> (threads c);
              origins := delete (id_of t) (origins c); stores := stores c |}.
Proof.
  intros HL [Hd Hfr Hi Hs Hr Hx] Ht Pt.
  assert (Ct : critical (th_pc t) = true) by (rewrite Pt; reflexivity).
  constructor; cbn.
  - intros id. destruct (decide (id = id_of t)) as [-> | Hne].
    + now rewrite !lookup_delete_eq.
    + rewrite !lookup_delete_ne by congruence. apply Hd.
  - intros id n H. apply lookup_delete_Some in H as [_ H1]. eauto.
  - intros id id' o H H'. apply lookup_delete_Some in H as [_ H1].
    apply lookup_delete_Some in H' as [_ H2]. eauto.
  - intros a ta o Ha So. split_lookup.
    + cbn in *. destruct (Hs _ _ _ Ht So) as [Hn Ho]. rewrite Pt in Ho. cbn in Ho.
      split; [exact Hn|]. intros id H. apply lookup_delete_Some in H as [Hne H1].
      apply Hne. eapply Hi; eauto.
    + destruct (Hs _ _ _ Ha So) as [Hn Ho]. split; [exact Hn|].
      rewrite (others_not_reading c i a t ta HL Ht Ct Ha) in * by assumption.
      intros id Hin. apply lookup_delete_Some in Hin as [_ H1]. now apply (Ho id).
  - intros a ta ct' rt' Ha Pa. split_lookup; [discriminate|].
    assert (R : reading (th_pc ta) = false)
      by (apply (others_not_reading c i a t ta); auto).
    rewrite Pa in R. discriminate.
  - intros a b ta tb o Ha Hb Sa Sb. split_lookup; cbn in *; eauto.
Qed.

Lemma table_ok_store (c : config) (i : nat) (t : thread) (ct : float) :
  lock_ok c -> table_ok c -> threads c !! i = Some t ->
  th_pc t = AtStore ct ->
  table_ok {| shared := with_state (insert (id_of t) ct) (shared c);
              threads := <[i := at_pc t (AtRelease (VInt 0))]> (threads c);
              origins := <[id_of t := Stored (stores c)]> (origins c);
              stores := S (stores c) |}.
Proof.
  intros HL [Hd Hfr Hi Hs Hr Hx] Ht Pt.
  assert (Ct : critical (th_pc t) = true) by (rewrite Pt; reflexivity).
  constructor; cbn.
  - intros id. destruct (decide (id = id_of t)) as [-> | Hne].
    + rewrite !lookup_insert_eq. split; discriminate.
    + rewrite !lookup_insert_ne by congruence. apply Hd.
  - intros id n H. apply lookup_insert_Some in H as [[_ E] | [_ H1]];
      [simplify_eq; lia | apply Hfr in H1; lia].
  - intros id id' o H H'.
    apply lookup_insert_Some in H as [[E1 E2] | [Hne H1]];
      apply lookup_insert_Some in H' as [[E3 E4] | [Hne' H2]];
      simplify_eq; auto.
    + apply Hfr in H2. lia.
    + apply Hfr in H1. lia.
    + eauto.
  - intros a ta o Ha So.
    assert (Hold : exists tb, threads c !! a = Some tb /\ th_source tb = Some o /\
                     reading (th_pc ta) = false /\ reading (th_pc tb) = false).
    { split_lookup.
      - exists t. cbn in *. rewrite Pt. auto.
      - exists ta. repeat split; auto; apply (others_not_reading c i a t ta); auto. }
    destruct Hold as (tb & Hb & Sb & Ra & Rb).
    destruct (Hs _ _ _ Hb Sb) as [Hn Ho]. rewrite Rb in Ho. rewrite Ra.
    split; [intros n E; specialize (Hn n E); lia|].
    intros id Hin. apply lookup_insert_Some in Hin as [[_ E] | [_ H1]].
    + subst o. specialize (Hn _ eq_refl). lia.
    + now apply (Ho id).
  - intros a ta ct' rt' Ha Pa. split_lookup; [discriminate|].
    assert (R : reading (th_pc ta) = false)
      by (apply (others_not_reading c i a t ta); auto).
    rewrite Pa in R. discriminate.
  - intros a b ta tb o Ha Hb Sa Sb. split_lookup; cbn in *; eauto.
Qed.

(** *** Every statement keeps the invariant *)

Lemma inv_step (i : nat) (c c' : config) :
  inv c -> step i c = Some c' -> inv c'.
Proof.
  intros [HL HT] Hstep.
  destruct (step_unfold i c c' Hstep) as (t & t' & Ht & Hs & Hth).
  destruct c' as [w' ths' g' n']. cbn in Hs, Hth. subst ths'.
  unfold step_thread in Hs. destruct (th_pc t) eqn:Pt.
  - (* adapters and locals *)
    simplify_eq. split.
    + apply (lock_ok_same c i t); auto. cbn. now rewrite Pt.
    + apply table_ok_same; auto. now rewrite Pt.
  - (* time() *)
    mstep_in Hs. simplify_eq. split.
    + apply (lock_ok_same c i t); auto. cbn. now rewrite Pt.
    + apply table_ok_same; auto. now rewrite Pt.
  - (* acquire *)
    mstep_in Hs. destruct (_lock (shared c)) eqn:El; [discriminate|].
    simplify_eq. split.
    + apply (lock_ok_acquire c i t); auto. cbn. now destruct (truthy (th_status t)).
    + apply table_ok_same; auto; [now rewrite Pt|].
      now destruct (truthy (th_status t)).
  - (* _state[id] *)
    mstep_in Hs. destruct (_state (shared c) !! id_of t) as [t0|] eqn:E;
      simplify_eq; split.
    + apply (lock_ok_same c i t); auto. cbn. now rewrite Pt.
    + now apply (table_ok_read c i t ct t0).
    + apply (lock_ok_same c i t); auto. cbn. now rewrite Pt.
    + apply table_ok_same; auto. now rewrite Pt.
  - (* del _state[id] *)
    destruct (inv_reading c HT i t ct request_time Ht Pt) as (t0 & o & E & _).
    mstep_in Hs. rewrite E in Hs. simplify_eq. split.
    + apply (lock_ok_same c i t); auto. cbn. now rewrite Pt.
    + now apply (table_ok_delete c i t ct request_time).
  - (* _state[id] = ct *)
    mstep_in Hs. simplify_eq. split.
    + apply (lock_ok_same c i t); auto. cbn. now rewrite Pt.
    + now apply (table_ok_store c i t ct).
  - (* release *)
    mstep_in Hs. destruct (_lock (shared c)) eqn:El; simplify_eq; split;
      try (apply (lock_ok_release c i t); auto; cbn; now rewrite Pt);
      apply table_ok_same; auto; now rewrite Pt.
  - (* release, exception pending *)
    mstep_in Hs. destruct (_lock (shared c)) eqn:El; simplify_eq; split;
      try (apply (lock_ok_release c i t); auto; cbn; now rewrite Pt);
      apply table_ok_same; auto; now rewrite Pt.
  - (* _log *)
    match type of Hs with context [_log ?a ?b ?d ?e ?f ?w] =>
      destruct (_log_frame a b d e f w) as (F1 & F2 & _);
      destruct (_log a b d e f w) as [[[]|x|] w2]
    end; simplify_eq; cbn in F1, F2; split;
      try (apply (lock_ok_same c i t); auto; cbn; now rewrite Pt);
      apply table_ok_same; auto; now rewrite Pt.
  - discriminate.
  - discriminate.
Qed.

Lemma inv_tick (r : Clock.reading) (c : config) :
  inv c -> inv (do_action (Tick r) c).
Proof.
  intros [[] []]. split; constructor; cbn; auto.
Qed.

Lemma inv_start (w : world) (calls : list (request * Z)) :
  _lock w = false -> inv (start w calls).
Proof.
  intros Hl.
  assert (Hnew : forall i t, map new_thread calls !! i = Some t ->
            th_pc t = AtEntry /\ th_source t = None).
  { intros i t H. change (map new_thread calls) with (new_thread <$> calls) in H.
    rewrite list_lookup_fmap in H.
    destruct (calls !! i); simplify_eq/=. auto. }
  split; constructor; cbn.
  - intros i j ti tj Hi _ Ci. apply Hnew in Hi as [E _]. rewrite E in Ci. discriminate.
  - congruence.
  - intros _ i t Hi. apply Hnew in Hi as [E _]. now rewrite E.
  - intros id. rewrite map_lookup_imap.
    destruct (_state w !! id); cbn; split; congruence.
  - intros id n. rewrite map_lookup_imap.
    destruct (_state w !! id); cbn; congruence.
  - intros id id' o. rewrite !map_lookup_imap.
    destruct (_state w !! id), (_state w !! id'); cbn; congruence.
  - intros i t o Hi So. apply Hnew in Hi as [_ E]. congruence.
  - intros i t ct rt Hi Pi. apply Hnew in Hi as [E _]. congruence.
  - intros i j ti tj o Hi _ Si. apply Hnew in Hi as [_ E]. congruence.
Qed.

Lemma inv_exec (sched : list action) : forall c, inv c -> inv (exec sched c).
Proof.
  induction sched as [|a sched IH]; intros c Hc; [exact Hc|].
  change (exec (a :: sched) c) with (exec sched (do_action a c)).
  apply IH. destruct a as [i | r]; [|now apply inv_tick].
  cbn. destruct (step i c) as [c'|] eqn:E; cbn; [|exact Hc].
  eapply inv_step; eauto.
Qed.

(** *** What one statement may touch *)

(** A statement that changes the table is a statement of the critical
    section, taken with the lock held before and after. *)
Lemma step_changes_table (i : nat) (c c' : config) :
  inv c -> step i c = Some c' ->
  _state (shared c') <> _state (shared c) ->
  exists t, threads c !! i = Some t /\ critical (th_pc t) = true /\
            _lock (shared c) = true /\ _lock (shared c') = true.
Proof.
  intros [HL HT] Hstep Hne.
  destruct (step_unfold i c c' Hstep) as (t & t' & Ht & Hs & _).
  destruct c' as [w' ths' g' n']. cbn in Hs, Hne |- *. clear Hstep.
  exists t. split; [exact Ht|].
  assert (Hheld : critical (th_pc t) = true -> _lock (shared c) = true).
  { intros Ct. destruct (_lock (shared c)) eqn:El; [reflexivity|].
    rewrite (inv_free c HL El i t Ht) in Ct. discriminate. }
  unfold step_thread in Hs. destruct (th_pc t) eqn:Pt; mstep_in Hs;
    try discriminate;
    try match type of Hs with context [_log ?a ?b ?d ?e ?f ?w] =>
      destruct (_log_frame a b d e f w) as (F1 & _);
      destruct (_log a b d e f w) as [[[]|x|] w2]; cbn in F1
    end;
    repeat match type of Hs with
    | context [if ?b then _ else _] => destruct b eqn:?
    | context [match ?x with Some _ => _ | None => _ end] => destruct x eqn:?
    end;
    simplify_eq; cbn in Hne |- *; try congruence; auto.
Qed.

(** A statement of the critical section is a map operation or the
    release, and nothing else: the world after it is the world before with
    the entry of the thread's request deleted or set, or with the lock
    free. *)
Lemma step_in_critical (i : nat) (c c' : config) (t : thread) :
  threads c !! i = Some t -> critical (th_pc t) = true ->
  step i c = Some c' ->
  shared c' = shared c \/
  shared c' = with_state (delete (id_of t)) (shared c) \/
  (exists ct, th_pc t = AtStore ct /\
     shared c' = with_state (insert (id_of t) ct) (shared c)) \/
  shared c' = with_lock false (shared c).
Proof.
  intros Ht Ct Hstep.
  destruct (step_unfold i c c' Hstep) as (t0 & t' & Ht0 & Hs & _).
  destruct c' as [w' ths' g' n']. cbn in Hs |- *. clear Hstep.
  rewrite Ht in Ht0. injection Ht0 as <-.
  unfold step_thread in Hs. destruct (th_pc t) eqn:Pt; try discriminate;
    mstep_in Hs.
  - destruct (_state (shared c) !! id_of t); simplify_eq; auto.
  - destruct (_state (shared c) !! id_of t); simplify_eq; auto.
  - simplify_eq. right. right. left. eauto.
  - destruct (_lock (shared c)); simplify_eq; auto.
  - destruct (_lock (shared c)); simplify_eq; auto.
Qed.

(** *** A terminal call that got through has a source *)

Lemma known_step (i : nat) (c c' : config) :
  inv c -> all_known c -> step i c = Some c' -> all_known c'.
Proof.
  intros [HL HT] Hk Hstep.
  destruct (step_unfold i c c' Hstep) as (t & t' & Ht & Hs & Hth).
  destruct c' as [w' ths' g' n']. cbn in Hs, Hth. subst ths'. clear Hstep.
  intros j tj Hj. cbn in Hj. split_lookup; [|eauto].
  specialize (Hk i t Ht). unfold source_known in *.
  unfold step_thread in Hs. destruct (th_pc t) eqn:Pt; mstep_in Hs;
    try discriminate;
    try match type of Hs with context [_log ?a ?b ?d ?e ?f ?w] =>
      destruct (_log a b d e f w) as [[[]|x|] w2]
    end;
    repeat match type of Hs with
    | context [if ?b then _ else _] => destruct b eqn:?
    | context [match ?x with Some _ => _ | None => _ end] => destruct x eqn:?
    end;
    simplify_eq; cbn; intros Tr; try (specialize (Hk Tr)); auto;
    try (rewrite Tr; exact I); try contradiction; try congruence.
  destruct (origins c !! id_of t) eqn:Eo; [eauto|].
  apply (inv_dom c HT) in Eo. congruence.
Qed.

Lemma known_exec (sched : list action) : forall c,
  inv c -> all_known c -> all_known (exec sched c).
Proof.
  induction sched as [|a sched IH]; intros c Hc Hk; [exact Hk|].
  change (exec (a :: sched) c) with (exec sched (do_action a c)).
  destruct a as [i | r].
  - cbn. destruct (step i c) as [c'|] eqn:E; cbn; [|auto].
    apply IH; [eapply inv_step | eapply known_step]; eauto.
  - apply IH; [now apply inv_tick | exact Hk].
Qed.

Lemma known_start (w : world) (calls : list (request * Z)) :
  all_known (start w calls).
Proof.
  intros i t H. cbn in H.
  change (map new_thread calls) with (new_thread <$> calls) in H.
  rewrite list_lookup_fmap in H. destruct (calls !! i); simplify_eq/=.
  intros _. exact I.
Qed.

End ThreadFacts.

(** C9: for any number of calls of [account_request] running at the same
    time, under any schedule and with the lock free at the beginning:
    at most one thread is between [acquire] and [release], and the lock is
    held exactly then; a statement that changes the table is taken inside
    that section with the lock held; a statement inside that section is the
    lookup, the delete, the store or the release and leaves everything else
    (records, clock, responses, sink) alone; a thread that has read its entry
    finds the same entry up to its delete, its duration being its own clock
    reading minus the start time stored there; every terminal call that
    returned has computed its duration from a table entry, and no two threads
    have computed theirs from the same entry. *)
Theorem C9_table_under_lock (w : world) (calls : list (request * Z))
    (sched : list Threads.action) :
  _lock w = false ->
  let c := Threads.exec sched (Threads.start w calls) in
  (forall i j ti tj,
     Threads.threads c !! i = Some ti -> Threads.threads c !! j = Some tj ->
     Threads.critical (Threads.th_pc ti) = true ->
     Threads.critical (Threads.th_pc tj) = true -> i = j) /\
  (_lock (Threads.shared c) = true <->
   exists i t, Threads.threads c !! i = Some t /\
               Threads.critical (Threads.th_pc t) = true) /\
  (forall i c',
     Threads.step i c = Some c' ->
     _state (Threads.shared c') <> _state (Threads.shared c) ->
     exists t, Threads.threads c !! i = Some t /\
               Threads.critical (Threads.th_pc t) = true /\
               _lock (Threads.shared c) = true /\
               _lock (Threads.shared c') = true) /\
  (forall i t c',
     Threads.threads c !! i = Some t ->
     Threads.critical (Threads.th_pc t) = true ->
     Threads.step i c = Some c' ->
     Threads.shared c' = Threads.shared c \/
     Threads.shared c' =
       with_state (delete (Threads.id_of t)) (Threads.shared c) \/
     (exists ct, Threads.th_pc t = Threads.AtStore ct /\
        Threads.shared c' =
          with_state (insert (Threads.id_of t) ct) (Threads.shared c)) \/
     Threads.shared c' = with_lock false (Threads.shared c)) /\
  (forall i t ct rt,
     Threads.threads c !! i = Some t ->
     Threads.th_pc t = Threads.AtDelete ct rt ->
     exists t0, _state (Threads.shared c) !! Threads.id_of t = Some t0 /\
                rt = (ct - t0)%float) /\
  (forall i t,
     Threads.threads c !! i = Some t ->
     Threads.th_pc t = Threads.Returned -> Threads.th_status t <> 0 ->
     exists o, Threads.th_source t = Some o) /\
  (forall i j ti tj o,
     Threads.threads c !! i = Some ti -> Threads.threads c !! j = Some tj ->
     Threads.th_source ti = Some o -> Threads.th_source tj = Some o -> i = j).
Proof.
  intros Hl c.
  assert (Hinv : Threads.inv c) by (apply inv_exec, inv_start, Hl).
  assert (Hk : Threads.all_known c).
  { apply known_exec; [apply inv_start, Hl | apply known_start]. }
  destruct Hinv as [HL HT].
  split; [apply (Threads.inv_mutex c HL)|].
  split.
  { split; [apply (Threads.inv_held c HL)|].
    intros (i & t & Ht & Ct). destruct (_lock (Threads.shared c)) eqn:El; [reflexivity|].
    rewrite (Threads.inv_free c HL El i t Ht) in Ct. discriminate. }
  split; [intros i c'; apply step_changes_table; split; assumption|].
  split; [intros i t c'; apply step_in_critical|].
  split.
  { intros i t ct rt Ht Pt.
    destruct (Threads.inv_reading c HT i t ct rt Ht Pt) as (t0 & o & E & R & _).
    eauto. }
  split; [|apply (Threads.inv_distinct c HT)].
  intros i t Ht Pt Hs. specialize (Hk i t Ht).
  unfold Threads.source_known in Hk. rewrite Pt in Hk.
  destruct Hk as [o Ho]; [|eauto].
  unfold truthy. now apply negb_true_iff, Z.eqb_neq.
Qed.

Lemma C9_table_under_lock_witness :
  let c := Threads.exec Sample.schedule
             (Threads.start (Sample.active Sample.ok_dict) Sample.calls) in
  (forall i j ti tj,
     Threads.threads c !! i = Some ti -> Threads.threads c !! j = Some tj ->
     Threads.critical (Threads.th_pc ti) = true ->
     Threads.critical (Threads.th_pc tj) = true -> i = j) /\
  (forall i j ti tj o,
     Threads.threads c !! i = Some ti -> Threads.threads c !! j = Some tj ->
     Threads.th_source ti = Some o -> Threads.th_source tj = Some o -> i = j).
Proof.
  pose proof (C9_table_under_lock (Sample.active Sample.ok_dict) Sample.calls
                Sample.schedule eq_refl) as H.
  cbv zeta in H. destruct H as (H1 & _ & _ & _ & _ & _ & H7).
  split; assumption.
Defined.

(** ** One thread alone is the function *)

Section SoloFacts.
Import Threads.

Lemma exec_run (i : nat) (sched : list action) (c : config) :
  exec (Run i :: sched) c = exec sched (default c (step i c)).
Proof. reflexivity. Qed.

Lemma step_solo (t : thread) (w : world) (g : gmap Z origin) (n : nat) :
  step 0 {| shared := w; threads := [t]; origins := g; stores := n |} =
  match step_thread t w g n with
  | Some (t', w', g', n') =>
      Some {| shared := w'; threads := [t']; origins := g'; stores := n' |}
  | None => None
  end.
Proof. reflexivity. Qed.

Ltac solo_rewrite :=
  rewrite exec_run;
  match goal with
  | |- context [step 0 {| shared := ?w; threads := [?t]; origins := ?g; stores := ?n |}] =>
      rewrite (step_solo t w g n)
  end.

Ltac solo_step :=
  solo_rewrite; unfold step_thread;
  cbv beta iota delta
    [th_pc th_status th_request th_source at_pc new_thread id_of fst snd];
  mstep; cbn [default from_option id].

(** A single thread scheduled seven times goes through the whole call:
    the world it leaves and the way it ends are those of
    [account_request]. *)
Lemma solo_run (rq : request) (status : Z) (w : world) :
  _lock w = false ->
  let c := exec (repeat (Run 0) 7) (start w [(rq, status)]) in
  shared c = snd (account_request rq status w) /\
  th_pc <$> threads c !! 0%nat =
    Some match fst (account_request rq status w) with
         | Return _ => Returned
         | Raise e => Raised e
         | Blocked => AtAcquire (Clock.time (clock w))
         end.
Proof.
  intros Hl c. subst c. unfold start. cbn [repeat map].
  do 3 solo_step. rewrite Hl. cbn [default from_option id].
  destruct (Z.eq_dec status 0) as [-> | Hs].
  - rewrite account_request_start by exact Hl.
    cbn [truthy Z.eqb negb]. do 2 solo_step. cbn [default from_option id].
    rewrite with_lock_roundtrip by exact Hl.
    solo_step. cbn [truthy Z.eqb negb].
    match goal with |- context [_log ?a ?b ?d ?e ?f ?x] =>
      pose proof (_log_not_blocked a b d e f x) as NB;
      destruct (_log a b d e f x) as [[[]|e0|] w2]
    end; [| | now contradiction NB]; cbn [default from_option id];
      repeat (solo_rewrite; cbn);
      (split; reflexivity).
  - assert (Tr : truthy status = true)
      by (unfold truthy; now apply negb_true_iff, Z.eqb_neq).
    rewrite Tr.
    destruct (_state w !! ITicket_id rq) as [t0|] eqn:E.
    + rewrite (account_request_end rq status t0) by assumption.
      solo_step. rewrite E. cbn [default from_option id].
      solo_step. rewrite E. cbn [default from_option id].
      solo_step. cbn [default from_option id].
      rewrite with_lock_roundtrip by exact Hl.
      solo_step. rewrite Tr.
      match goal with |- context [_log ?a ?b ?d ?e ?f ?x] =>
        pose proof (_log_not_blocked a b d e f x) as NB;
        destruct (_log a b d e f x) as [[[]|e0|] w2]
      end; [| | now contradiction NB]; cbn [default from_option id];
        repeat (solo_rewrite; cbn);
        (split; reflexivity).
    + rewrite account_request_miss by assumption.
      solo_step. rewrite E. cbn [default from_option id].
      solo_step. cbn [default from_option id].
      rewrite with_lock_restore by exact Hl.
      repeat (solo_rewrite; cbn).
      split; reflexivity.
Qed.

End SoloFacts.

(** * Further properties of the module *)

(** ** Activation that does not happen *)

(** X1: without a [timelogging] section in the product configuration,
    [start_timelogging] returns and changes nothing: no sink is set, no
    record is written and no handler is registered. *)
Theorem X1_not_configured (product_config : gmap string (gmap string string))
    (w : world) :
  product_config !! "timelogging" = None ->
  start_timelogging product_config w = (Return tt, w).
Proof. intros H. unfold start_timelogging. now rewrite H. Qed.

Lemma X1_not_configured_witness :
  start_timelogging ∅ Sample.fresh = (Return tt, Sample.fresh).
Proof. apply (X1_not_configured ∅ Sample.fresh). reflexivity. Defined.

(** X2: with a [timelogging] section that has no [filebase] key,
    [start_timelogging] raises [KeyError('filebase')] before anything is
    done: the sink stays as it was, no record is written and no handler is
    registered. *)
Theorem X2_filebase_missing (product_config : gmap string (gmap string string))
    (config : gmap string string) (w : world) :
  product_config !! "timelogging" = Some config ->
  config !! "filebase" = None ->
  start_timelogging product_config w = (Raise (KeyError (VStr "filebase")), w).
Proof.
  intros H1 H2. unfold start_timelogging, config_getitem.
  rewrite H1, H2. reflexivity.
Qed.

Lemma X2_filebase_missing_witness :
  start_timelogging {[ "timelogging" := {[ "base" := "/var/log/timelog" ]} ]}
    Sample.fresh =
  (Raise (KeyError (VStr "filebase")), Sample.fresh).
Proof.
  apply (X2_filebase_missing _ {[ "base" := "/var/log/timelog" ]} Sample.fresh);
    vm_compute; reflexivity.
Defined.

(** ** What one call of [account_request] does to the world *)

Lemma _log_trace (type : string) (status id : Z) (rt : pyval) (info : string)
    (w : world) :
  exists es, trace (snd (_log type status id rt info w)) = (trace w ++ es)%list /\
             (length es <= 1)%nat /\ forallb is_record es = true.
Proof.
  unfold _log. mstep.
  destruct (log_string _ type status id rt info); mstep;
    [| exists []; rewrite app_nil_r; auto].
  destruct (_logfile w) as [l|] eqn:El; [| exists []; rewrite app_nil_r; auto].
  destruct (logfile_is_STDERR l).
  - unfold _LOGGER_info. mstep. eexists [_]. cbn. auto.
  - destruct l; unfold logfile_write; mstep.
    + exists []. rewrite app_nil_r. auto.
    + eexists [_]. cbn. auto.
Qed.

(** X3: whatever its arguments and however it ends, a call of
    [account_request] keeps every earlier record and writes at most one new
    one; it registers no handler, and it leaves the lock, the sink, the
    clock and the response objects as it found them. *)
Theorem X3_account_request_footprint (rq : request) (status : Z) (w : world) :
  let w' := snd (account_request rq status w) in
  (exists es, trace w' = (trace w ++ es)%list /\ (length es <= 1)%nat /\
              forallb is_record es = true) /\
  _lock w' = _lock w /\ _logfile w' = _logfile w /\
  clock w' = clock w /\ heap w' = heap w.
Proof.
  cbn zeta. destruct (_lock w) eqn:Hl.
  - rewrite account_request_blocked by exact Hl. cbn.
    split; [exists []; rewrite app_nil_r; auto | auto].
  - destruct (account_request_frame rq status w Hl) as (F1 & F2 & F3 & F4 & _).
    split; [| rewrite F1, F2, F3, F4; auto].
    destruct (Z.eq_dec status 0) as [-> | Hs].
    + rewrite account_request_start by exact Hl.
      match goal with |- context [_log ?a ?b ?d ?e ?f ?x] =>
        destruct (_log_trace a b d e f x) as (es & H & Hn & Hr) end.
      exists es. auto.
    + destruct (_state w !! ITicket_id rq) as [t0|] eqn:E.
      * rewrite (account_request_end rq status t0) by assumption.
        match goal with |- context [_log ?a ?b ?d ?e ?f ?x] =>
          destruct (_log_trace a b d e f x) as (es & H & Hn & Hr) end.
        exists es. auto.
      * rewrite account_request_miss by assumption.
        exists []. cbn. rewrite app_nil_r. auto.
Qed.

(** X4: a start call followed by a terminal call for the same request
    leaves the table exactly as it was before the two, when the request had
    no open entry: the insert and the delete undo each other. *)
Theorem X4_start_terminal_restores_table (rq : request) (status : Z)
    (end_clock : Clock.reading) (w : world) :
  _lock w = false -> status <> 0 ->
  _state w !! ITicket_id rq = None ->
  let w1 := snd (account_request rq 0 w) in
  let w2 := snd (account_request rq status (with_clock end_clock w1)) in
  _state w2 = _state w.
Proof.
  intros Hl Hs He w1 w2.
  destruct (account_request_frame rq 0 w Hl) as (L1 & _).
  assert (S1 : _state w1 = <[ITicket_id rq := Clock.time (clock w)]> (_state w)).
  { subst w1. rewrite account_request_start by exact Hl.
    now destruct (_log_frame "+" 0 (ITicket_id rq) (VInt 0) (IInfo_str rq)
                    (with_state (insert (ITicket_id rq) (Clock.time (clock w))) w))
      as (H & _). }
  subst w2.
  rewrite (account_request_end rq status (Clock.time (clock w)));
    [| exact L1 | exact Hs | cbn; rewrite S1; apply lookup_insert_eq].
  match goal with |- _state (snd (_log ?a ?b ?d ?e ?f ?x)) = _ =>
    destruct (_log_frame a b d e f x) as (H & _); rewrite H end.
  cbn. rewrite S1. now apply delete_insert_id.
Qed.

Lemma X4_start_terminal_restores_table_witness :
  let w := Sample.active Sample.ok_dict in
  let w1 := snd (account_request Sample.req 0 w) in
  let w2 := snd (account_request Sample.req 200
                   (with_clock (Sample.at_time 101.75) w1)) in
  _state w2 = _state w.
Proof.
  apply (X4_start_terminal_restores_table Sample.req 200 (Sample.at_time 101.75)
           (Sample.active Sample.ok_dict)); [reflexivity | lia | reflexivity].
Defined.

(** X5: a request is accounted once.  After a terminal call has taken the
    entry of a request, and whatever calls for other requests follow, a
    second terminal call for the same request raises [KeyError] and writes
    nothing. *)
Theorem X5_second_terminal_raises (rq : request) (status status' : Z) (t0 : float)
    (others : list call) (end_clock : Clock.reading) (w : world) :
  _lock w = false -> status <> 0 -> status' <> 0 ->
  _state w !! ITicket_id rq = Some t0 ->
  Forall (fun c => ITicket_id (call_request c) <> ITicket_id rq) others ->
  let w1 := snd (account_request rq status w) in
  let w2 := with_clock end_clock (run_calls others w1) in
  account_request rq status' w2 = (Raise (KeyError (VInt (ITicket_id rq))), w2).
Proof.
  intros Hl Hs Hs' He Hall w1 w2.
  destruct (account_request_frame rq status w Hl) as (L1 & _).
  assert (S1 : _state w1 !! ITicket_id rq = None).
  { subst w1. rewrite (account_request_end rq status t0) by assumption.
    match goal with |- _state (snd (_log ?a ?b ?d ?e ?f ?x)) !! _ = _ =>
      destruct (_log_frame a b d e f x) as (H & _); rewrite H end.
    cbn. apply lookup_delete_eq. }
  destruct (run_calls_frame others (ITicket_id rq) w1 L1 Hall) as (R1 & _ & R3).
  apply account_request_miss; [exact R1 | exact Hs' |].
  subst w2. cbn. now rewrite R3.
Qed.

Lemma X5_second_terminal_raises_witness :
  let w1 := snd (account_request Sample.req 200 (Sample.serving Sample.ok_dict)) in
  let w2 := with_clock (Sample.at_time 101.75)
              (run_calls [{| call_clock := Sample.at_time 101;
                             call_request := Sample.other_req;
                             call_status := 0 |}] w1) in
  account_request Sample.req 390 w2 = (Raise (KeyError (VInt 7)), w2).
Proof.
  apply (X5_second_terminal_raises Sample.req 200 390 99.25%float
           [{| call_clock := Sample.at_time 101; call_request := Sample.other_req;
               call_status := 0 |}]
           (Sample.at_time 101.75) (Sample.serving Sample.ok_dict));
    [reflexivity | lia | lia | reflexivity |].
  repeat constructor. vm_compute. discriminate.
Defined.

(** ** A stale entry and the other requests *)

Lemma _log_with_state (f : gmap Z float -> gmap Z float) (type : string)
    (status id : Z) (rt : pyval) (info : string) (w : world) :
  _log type status id rt info (with_state f w) =
  (fst (_log type status id rt info w),
   with_state f (snd (_log type status id rt info w))).
Proof.
  unfold _log. mstep.
  destruct (log_string _ type status id rt info); mstep; [|reflexivity].
  destruct (_logfile w) as [l|]; [|reflexivity].
  destruct (logfile_is_STDERR l); [reflexivity|].
  destruct l; reflexivity.
Qed.

Lemma with_state_insert_insert (i j : Z) (x y : float) (w : world) :
  i <> j ->
  with_state (insert i x) (with_state (insert j y) w) =
  with_state (insert j y) (with_state (insert i x) w).
Proof.
  intros H. unfold with_state. cbn. f_equal. now apply insert_insert_ne.
Qed.

Lemma with_state_delete_insert (i j : Z) (y : float) (w : world) :
  i <> j ->
  with_state (delete i) (with_state (insert j y) w) =
  with_state (insert j y) (with_state (delete i) w).
Proof.
  intros H. unfold with_state. cbn. f_equal. now apply delete_insert_ne.
Qed.

(** A call for one request does the same with and without an entry of
    another request in the table. *)
Lemma account_request_other_entry (rq : request) (status id : Z) (t : float)
    (w : world) :
  _lock w = false -> ITicket_id rq <> id ->
  account_request rq status (with_state (insert id t) w) =
  (fst (account_request rq status w),
   with_state (insert id t) (snd (account_request rq status w))).
Proof.
  intros Hl Hne.
  assert (Hl' : _lock (with_state (insert id t) w) = false) by exact Hl.
  destruct (Z.eq_dec status 0) as [-> | Hs].
  - rewrite !account_request_start by assumption. cbn [clock with_state].
    rewrite with_state_insert_insert by exact Hne.
    apply _log_with_state.
  - destruct (_state w !! ITicket_id rq) as [t0|] eqn:E.
    + rewrite (account_request_end rq status t0 w) by assumption.
      rewrite (account_request_end rq status t0 (with_state (insert id t) w));
        [| exact Hl' | exact Hs | cbn; now rewrite lookup_insert_ne by congruence].
      cbn [clock with_state].
      rewrite with_state_delete_insert by exact Hne.
      apply _log_with_state.
    + rewrite (account_request_miss rq status w) by assumption.
      rewrite account_request_miss;
        [reflexivity | exact Hl' | exact Hs |].
      cbn. now rewrite lookup_insert_ne by congruence.
Qed.

(** X6: an entry that is never closed stays where it is and disturbs
    nobody: any sequence of calls for other requests writes the same records
    and leaves the same entries as it would without the stale entry, which is
    still in the table afterwards. *)
Theorem X6_stale_entry_is_inert (id : Z) (t : float) (others : list call)
    (w : world) :
  _lock w = false ->
  Forall (fun c => ITicket_id (call_request c) <> id) others ->
  run_calls others (with_state (insert id t) w) =
  with_state (insert id t) (run_calls others w).
Proof.
  revert w. induction others as [|c cs IH]; intros w Hl Hall; [reflexivity|].
  inversion Hall as [|? ? Hc Hcs]; subst.
  change (run_calls (c :: cs) ?x) with (run_calls cs (run_call c x)).
  assert (E : run_call c (with_state (insert id t) w) =
              with_state (insert id t) (run_call c w)).
  { unfold run_call.
    change (with_clock (call_clock c) (with_state (insert id t) w))
      with (with_state (insert id t) (with_clock (call_clock c) w)).
    now rewrite account_request_other_entry. }
  rewrite E. apply IH; [|exact Hcs].
  now destruct (run_call_frame c w id Hl Hc) as (H & _).
Qed.

Lemma X6_stale_entry_is_inert_witness :
  run_calls [{| call_clock := Sample.at_time 101; call_request := Sample.other_req;
                call_status := 0 |};
             {| call_clock := Sample.at_time 102; call_request := Sample.other_req;
                call_status := 200 |}]
    (with_state (insert 7 99.25%float) (Sample.active Sample.ok_dict)) =
  with_state (insert 7 99.25%float)
    (run_calls [{| call_clock := Sample.at_time 101; call_request := Sample.other_req;
                   call_status := 0 |};
                {| call_clock := Sample.at_time 102; call_request := Sample.other_req;
                   call_status := 200 |}]
       (Sample.active Sample.ok_dict)).
Proof.
  apply (X6_stale_entry_is_inert 7 99.25%float _ (Sample.active Sample.ok_dict));
    [reflexivity|].
  repeat constructor; vm_compute; discriminate.
Defined.

(** ** The failure handler, step by step *)

Section FailureFacts.
Context {exc : Type} {RC : ResponseClass exc}.

(** After a normal return the dictionary is the saved one laid over the
    forced one. *)
Lemma handle_request_failure_returns (rq : request) (e : exc) (w w' : world) :
  handle_request_failure (IPubFailure rq e false) w = (Return tt, w') ->
  dict_of w' (response rq) =
  dict_of w (response rq) ∪ setStatus e (dict_of w (response rq)).
Proof.
  intros H. rewrite handle_request_failure_no_retry in H.
  destruct (handle_request_success _ _) as [[[]|x|] w2]; try discriminate.
  injection H as <-. apply dict_of_insert.
Qed.

Lemma union_absorb (d m : rdict) :
  (forall k, d !! k = None -> m !! k = None) -> d ∪ m = d.
Proof.
  intros H. apply map_eq. intros k. rewrite lookup_union.
  destruct (d !! k) eqn:E.
  - now destruct (m !! k).
  - now rewrite (H k E).
Qed.

End FailureFacts.

(** X7: a failure event without retry, for a request with an open entry,
    is logged with the status that the success path resolves from the
    response after [setStatus(exc_info[0])], not with the status the
    response had: one record with that status, kind "-" and the elapsed
    time is written, the entry is removed, and the response dictionary is
    the saved one laid over the forced one. *)
Theorem X7_failure_logs_forced_status {exc} {RC : ResponseClass exc}
    (rq : request) (e : exc) (n : Z) (t0 : float) (l : logfile) (w : world) :
  _lock w = false -> _logfile w = Some l -> configured l ->
  _state w !! ITicket_id rq = Some t0 ->
  resolve_status (setStatus e (dict_of w (response rq))) = Ok n -> n <> 0 ->
  let d := dict_of w (response rq) in
  handle_request_failure (IPubFailure rq e false) w =
  (Return tt,
   with_heap (insert (response rq) (d ∪ setStatus e d))
     (emit (emitted l (layout (now_text w) n
                         (PyFloat.fixed (Clock.time (clock w) - t0)%float 4)
                         "-" (ITicket_id rq) (IInfo_str rq)))
        (with_state (delete (ITicket_id rq))
           (with_heap (insert (response rq) (setStatus e d)) w)))).
Proof.
  intros Hl Hf Hc He Hr Hn d.
  rewrite handle_request_failure_no_retry. fold d.
  rewrite handle_request_success_resolved. cbn [event_request].
  rewrite dict_of_insert. fold d in Hr. rewrite Hr.
  destruct (n =? 0) eqn:E; [apply Z.eqb_eq in E; contradiction|].
  rewrite (account_request_end rq n t0); [| exact Hl | exact Hn | exact He].
  rewrite (_log_configured "-" n _ _ _ l); [reflexivity | eauto | exact Hf | exact Hc].
Qed.

Lemma X7_failure_logs_forced_status_witness :
  let w := Sample.serving Sample.ok_dict in
  let d := dict_of w 1 in
  handle_request_failure Sample.failure w =
  (Return tt,
   with_heap (insert 1%positive (d ∪ setStatus HTTPResponse.InternalError d))
     (emit (emitted (LFRotator Sample.rotator)
              (layout (now_text w) 500 (PyFloat.fixed (100.5 - 99.25)%float 4)
                 "-" 7 "GET /x"))
        (with_state (delete 7)
           (with_heap (insert 1%positive (setStatus HTTPResponse.InternalError d)) w)))).
Proof.
  apply (X7_failure_logs_forced_status Sample.req HTTPResponse.InternalError 500
           99.25%float (LFRotator Sample.rotator) (Sample.serving Sample.ok_dict));
    [reflexivity | reflexivity | exact I | reflexivity | vm_compute; reflexivity | lia].
Defined.

(** X8: when [setStatus] only rebinds attributes the response already has,
    a failure handler that returns leaves the instance dictionary of the
    response exactly as it was. *)
Theorem X8_restore_is_exact {exc} {RC : ResponseClass exc} (rq : request)
    (e : exc) (w w' : world) :
  (forall k, dict_of w (response rq) !! k = None ->
             setStatus e (dict_of w (response rq)) !! k = None) ->
  handle_request_failure (IPubFailure rq e false) w = (Return tt, w') ->
  dict_of w' (response rq) = dict_of w (response rq).
Proof.
  intros Hk H. rewrite (handle_request_failure_returns rq e w w' H).
  now apply union_absorb.
Qed.

Lemma X8_restore_is_exact_witness :
  dict_of (snd (handle_request_failure Sample.failure (Sample.serving Sample.ok_dict))) 1 =
  dict_of (Sample.serving Sample.ok_dict) 1.
Proof.
  apply (X8_restore_is_exact Sample.req HTTPResponse.InternalError
           (Sample.serving Sample.ok_dict)
           (snd (handle_request_failure Sample.failure (Sample.serving Sample.ok_dict)))).
  - intros k Hk.
    destruct (decide (k = "status")) as [-> | N1]; [vm_compute in Hk; discriminate|].
    destruct (decide (k = "errmsg")) as [-> | N2]; [vm_compute in Hk; discriminate|].
    cbn [setStatus HTTPResponse.response_class].
    rewrite !lookup_insert_ne by congruence. exact Hk.
  - vm_compute. reflexivity.
Defined.

(** X9: when the failure handler of an event without retry raises, the
    exception is the one the success path raised on the forced response,
    and the response is left with the dictionary [setStatus] produced: the
    saved state is not written back. *)
Theorem X9_failure_raise_keeps_forced {exc} {RC : ResponseClass exc}
    (rq : request) (e : exc) (x : exn) (w w' : world) :
  handle_request_failure (IPubFailure rq e false) w = (Raise x, w') ->
  let forced := with_heap (insert (response rq)
                  (setStatus e (dict_of w (response rq)))) w in
  handle_request_success (IPubFailure rq e false) forced = (Raise x, w') /\
  dict_of w' (response rq) = setStatus e (dict_of w (response rq)).
Proof.
  intros H forced. split; [|now apply (handle_request_failure_raises rq e x w w')].
  rewrite handle_request_failure_no_retry in H. fold forced in H.
  destruct (handle_request_success _ forced) as [[[]|y|] w2]; try discriminate.
  now injection H as -> ->.
Qed.

Lemma X9_failure_raise_keeps_forced_witness :
  let w := Sample.active Sample.ok_dict in
  let w' := snd (handle_request_failure Sample.failure w) in
  let forced := with_heap (insert 1%positive
                  (setStatus HTTPResponse.InternalError (dict_of w 1))) w in
  handle_request_success Sample.failure forced = (Raise (KeyError (VInt 7)), w') /\
  dict_of w' 1 = setStatus HTTPResponse.InternalError (dict_of w 1).
Proof.
  apply (X9_failure_raise_keeps_forced Sample.req HTTPResponse.InternalError
           (KeyError (VInt 7)) (Sample.active Sample.ok_dict)
           (snd (handle_request_failure Sample.failure (Sample.active Sample.ok_dict)))).
  vm_compute. reflexivity.
Defined.

(** X10: when adapting the response to [IStatus], or converting the adapter
    to an integer, raises, the success handler raises the same exception
    and changes nothing: no record is written and the entry of the request
    stays open. *)
Theorem X10_status_resolution_raises {exc} {RC : ResponseClass exc}
    (ev : event exc) (x : exn) (w : world) :
  IStatus (dict_of w (response (event_request ev))) = Err x ->
  handle_request_success ev w = (Raise x, w).
Proof.
  intros H. rewrite handle_request_success_resolved.
  unfold resolve_status. now rewrite H.
Qed.

Lemma X10_status_resolution_raises_witness :
  handle_request_success (IPubSuccess (exc:=Z) Sample.req)
    (Sample.serving AdaptedResponse.text_dict) =
  (Raise (TypeError "__int__ returned non-int (type str)"),
   Sample.serving AdaptedResponse.text_dict).
Proof.
  apply (X10_status_resolution_raises (IPubSuccess (exc:=Z) Sample.req)
           (TypeError "__int__ returned non-int (type str)")
           (Sample.serving AdaptedResponse.text_dict)).
  vm_compute. reflexivity.
Defined.

(** ** What the logger receives, and where the columns are *)

Section ColumnFacts.
Import PyStr.

Lemma rstrip_app_keep (s t : string) (c : ascii) :
  last_char s = Some c -> isspace c = false ->
  rstrip (s ++ t) = s ++ rstrip t.
Proof.
  intros Hl Hc. induction s as [|x s IH]; [discriminate|].
  destruct s as [|y s].
  - cbn in Hl. injection Hl as ->. cbn. rewrite Hc.
    now destruct (rstrip t).
  - change (String x (String y s) ++ t) with (String x (String y s ++ t)).
    cbn [rstrip]. rewrite IH by exact Hl. reflexivity.
Qed.

Lemma lstrip_layout_head (t : Clock.struct_time) (status : Z) (rt : string)
    (kind : ascii) (id : Z) (rest : string) :
  lstrip (layout_head (timestamp_of t) status rt kind id ++ rest) =
  layout_head (timestamp_of t) status rt kind id ++ rest.
Proof.
  change (layout_head (timestamp_of t) status rt kind id ++ rest)
    with (String (digit (Clock.tm_year t mod 100 / 10))
            (String.append
               (let s := layout_head (timestamp_of t) status rt kind id in
                match s with String _ r => r | "" => "" end) rest)).
  apply lstrip_first, digit_not_space.
Qed.

Lemma strip_layout (t : Clock.struct_time) (status : Z) (rt : string)
    (kind : ascii) (id : Z) (info : string) :
  strip (layout (timestamp_of t) status rt kind id info) =
  layout_head (timestamp_of t) status rt kind id ++ rstrip (" " ++ info ++ newline).
Proof.
  rewrite layout_split. unfold strip. rewrite lstrip_layout_head.
  eapply rstrip_app_keep; [apply last_char_layout_head | apply digit_not_space].
Qed.

Lemma last_char_None (s : string) : last_char s = None -> s = "".
Proof.
  induction s as [|x s IH]; [reflexivity|]. cbn.
  destruct s; [discriminate|]. intros H. now apply IH in H.
Qed.

Lemma length_rjust_fit (w : nat) (s : string) :
  (String.length s <= w)%nat -> String.length (rjust w s) = w.
Proof. intros H. rewrite length_rjust. lia. Qed.

Lemma length_str_int_bound (k : nat) (z : Z) :
  0 <= z < 10 ^ Z.of_nat (S k) -> (String.length (str_int z) <= S k)%nat.
Proof.
  intros H. unfold str_int.
  destruct (z <? 0) eqn:E; [apply Z.ltb_lt in E; lia|].
  now apply length_dec_bound.
Qed.

End ColumnFacts.

(** X11: in logger mode the message is the record with the trailing
    whitespace removed and nothing else: the columns up to the request id
    are untouched.  The message ends after the request id when info is
    empty, and is the line without its newline when info ends in a character
    that is not whitespace; trailing whitespace of info itself is lost. *)
Theorem X11_logger_message (t : Clock.struct_time) (status id : Z) (rt : float)
    (kind : ascii) (info : string) (w : world) :
  let ts := timestamp_of t in
  let head := layout_head ts status (PyFloat.fixed rt 4) kind id in
  let msg := head ++ PyStr.rstrip (" " ++ info ++ newline) in
  (let w' := with_clock {| Clock.time := Clock.time (clock w); Clock.localtime := t |}
               (with_logfile (Some (LFStr STDERR)) w) in
   _log (String kind "") status id (VFloat rt) info w' =
   (Return tt, emit (LoggerInfo msg) w')) /\
  match PyStr.last_char info with
  | None => msg = head
  | Some c => if PyStr.isspace c then True else msg = head ++ " " ++ info
  end.
Proof.
  intros ts head msg. subst ts head msg. split.
  - cbn zeta.
    rewrite (_log_configured kind status id (VFloat rt) info (LFStr STDERR));
      [| eauto | reflexivity | reflexivity].
    cbn [emitted request_time_text].
    change (now_text _) with (timestamp_of t). now rewrite strip_layout.
  - destruct (PyStr.last_char info) as [c|] eqn:El.
    + destruct (PyStr.isspace c) eqn:Ec; [exact I|].
      f_equal.
      change (" " ++ info ++ newline) with ((String " " info) ++ newline).
      apply (rstrip_keep (String " " info) newline c); [| exact Ec | reflexivity].
      rewrite last_char_cons; [exact El | intros ->; discriminate].
    + apply last_char_None in El. subst info. cbn. now rewrite append_nil_r.
Qed.

Lemma layout_columns (ts : string) (status id : Z) (rt : string)
    (kind : ascii) (info : string) :
  String.length ts = 13%nat ->
  0 <= status <= 999 -> 0 <= id <= 999999 -> (String.length rt <= 10)%nat ->
  let line := layout ts status rt kind id info in
  exists before between,
    line = before ++ String kind (between ++ info ++ newline) /\
    String.length before = 29%nat /\ String.length between = 8%nat /\
    String.get 29 line = Some kind /\
    String.length line = (39 + String.length info)%nat.
Proof.
  intros Ht Hs Hi Hr line.
  set (before := ts ++ " " ++ PyStr.rjust 3 (PyStr.str_int status) ++ " "
                 ++ PyStr.rjust 10 rt ++ " ").
  set (between := " " ++ PyStr.rjust 6 (PyStr.str_int id) ++ " ").
  assert (E : line = before ++ String kind (between ++ info ++ newline)).
  { subst line before between. unfold layout, newline.
    now rewrite !append_assoc. }
  assert (Lb : String.length before = 29%nat).
  { subst before. rewrite !length_append, Ht.
    rewrite (length_rjust_fit 3), (length_rjust_fit 10); [reflexivity | exact Hr |].
    apply (length_str_int_bound 2). change (10 ^ Z.of_nat 3) with 1000. lia. }
  assert (Lm : String.length between = 8%nat).
  { subst between. rewrite !length_append.
    rewrite (length_rjust_fit 6); [reflexivity|].
    apply (length_str_int_bound 5). change (10 ^ Z.of_nat 6) with 1000000. lia. }
  exists before, between. repeat split; auto.
  - rewrite E. replace 29%nat with (0 + String.length before)%nat by lia.
    rewrite <- append_correct2. reflexivity.
  - rewrite E, length_append. cbn [String.length].
    rewrite !length_append, Lb, Lm. unfold newline. cbn [String.length]. lia.
Qed.

(** X12: for a status from 0 to 999, a request id from 0 to 999999 and a
    request time of less than 99999 seconds (or a negative one of less than
    9999 seconds), the line [_log] builds from them, and writes to a file
    sink, has fixed columns: the kind is the character at offset 29, info
    starts at offset 38, and the line is 39 characters longer than info. *)
Theorem X12_fixed_columns (t : Clock.struct_time) (status id : Z) (rt : float)
    (kind : ascii) (info : string) (r : Rotator) (w : world) :
  0 <= status <= 999 -> 0 <= id <= 999999 -> ten_columns (Prim2SF rt) ->
  let w' := with_clock {| Clock.time := Clock.time (clock w); Clock.localtime := t |}
              (with_logfile (Some (LFRotator r)) w) in
  exists line before between,
    log_string (Clock.strftime _log_time_format t) (String kind "") status id
      (VFloat rt) info = Ok line /\
    _log (String kind "") status id (VFloat rt) info w' =
      (Return tt, emit (RotatorWrite r line) w') /\
    line = before ++ String kind (between ++ info ++ newline) /\
    String.length before = 29%nat /\ String.length between = 8%nat /\
    String.get 29 line = Some kind /\
    String.length line = (39 + String.length info)%nat.
Proof.
  intros Hs Hi Hr w'.
  apply length_fixed_ten_columns in Hr.
  destruct (layout_columns (timestamp_of t) status id (PyFloat.fixed rt 4) kind info
              (length_timestamp t) Hs Hi Hr) as (before & between & E & Lb & Lm & G & L).
  exists (layout (timestamp_of t) status (PyFloat.fixed rt 4) kind id info),
         before, between.
  split; [apply (log_string_layout _ _ _ _ (VFloat rt)); eauto|].
  split; [|auto].
  subst w'.
  rewrite (_log_configured kind status id (VFloat rt) info (LFRotator r));
    [reflexivity | eauto | reflexivity | exact I].
Qed.

Lemma X12_fixed_columns_witness :
  let w' := with_clock {| Clock.time := Clock.time (clock Sample.fresh);
                          Clock.localtime := Sample.localtime |}
              (with_logfile (Some (LFRotator Sample.rotator)) Sample.fresh) in
  exists line before between,
    log_string (Clock.strftime _log_time_format Sample.localtime) "-" 200 7
      (VFloat Sample.t_1_2345) "GET /x" = Ok line /\
    _log "-" 200 7 (VFloat Sample.t_1_2345) "GET /x" w' =
      (Return tt, emit (RotatorWrite Sample.rotator line) w') /\
    line = before ++ String "-" (between ++ "GET /x" ++ newline) /\
    String.length before = 29%nat /\ String.length between = 8%nat /\
    String.get 29 line = Some "-"%char /\
    String.length line = (39 + String.length "GET /x")%nat.
Proof.
  apply (X12_fixed_columns Sample.localtime 200 7 Sample.t_1_2345 "-" "GET /x"
           Sample.rotator Sample.fresh); [lia | lia | vm_compute; reflexivity].
Defined.

(** ** More on concurrent calls *)

Section ScheduleFacts.
Import Threads.

(** A thread that has not finished can take its next statement, unless it
    waits for a lock that is held. *)
Lemma thread_can_step (t : thread) (w : world) (g : gmap Z origin) (n : nat) :
  finished (th_pc t) = false ->
  (forall ct, th_pc t = AtAcquire ct -> _lock w = false) ->
  exists r, step_thread t w g n = Some r.
Proof.
  intros Hf Ha. unfold step_thread.
  destruct (th_pc t) eqn:Pt; try discriminate; mstep; eauto.
  - rewrite (Ha ct eq_refl). eauto.
  - destruct (_state w !! id_of t); eauto.
  - destruct (_state w !! id_of t); eauto.
  - destruct (_lock w); eauto.
  - destruct (_lock w); eauto.
  - match goal with |- context [_log ?a ?b ?d ?e ?f ?x] =>
      pose proof (_log_not_blocked a b d e f x) as NB;
      destruct (_log a b d e f x) as [[[]|e0|] w2]
    end; eauto. now contradiction NB.
Qed.

Lemma step_of_thread (i : nat) (c : config) (t : thread) :
  threads c !! i = Some t ->
  (exists r, step_thread t (shared c) (origins c) (stores c) = Some r) ->
  exists c', step i c = Some c'.
Proof.
  intros Ht [[[[t' w'] g'] n'] Hr]. unfold step. rewrite Ht, Hr. eauto.
Qed.

Lemma critical_not_finished (p : pc) : critical p = true -> finished p = false.
Proof. destruct p; cbn; congruence. Qed.

(** What a statement keeps: the request and the status of its thread, and
    every table entry of another request. *)
Lemma step_thread_frame (t t' : thread) (w w' : world) (g g' : gmap Z origin)
    (n n' : nat) :
  step_thread t w g n = Some (t', w', g', n') ->
  th_request t' = th_request t /\ th_status t' = th_status t /\
  forall id, id <> id_of t -> _state w' !! id = _state w !! id.
Proof.
  intros Hs. unfold step_thread in Hs.
  destruct (th_pc t) eqn:Pt; mstep_in Hs; try discriminate;
    try match type of Hs with context [_log ?a ?b ?d ?e ?f ?x] =>
      destruct (_log_frame a b d e f x) as (F1 & _);
      destruct (_log a b d e f x) as [[[]|e0|] w2]; cbn in F1
    end;
    repeat match type of Hs with
    | context [if ?b then _ else _] => destruct b eqn:?
    | context [match ?x with Some _ => _ | None => _ end] => destruct x eqn:?
    end;
    simplify_eq; cbn; repeat split; auto; intros id Hne;
    rewrite ?lookup_delete_ne, ?lookup_insert_ne by congruence;
    congruence.
Qed.

Lemma exec_frame (id : Z) (sched : list action) : forall c,
  (forall i t, threads c !! i = Some t -> id_of t <> id) ->
  _state (shared (exec sched c)) !! id = _state (shared c) !! id.
Proof.
  induction sched as [|a sched IH]; intros c Hc; [reflexivity|].
  change (exec (a :: sched) c) with (exec sched (do_action a c)).
  destruct a as [i | r]; [|rewrite IH; [reflexivity | exact Hc]].
  cbn [do_action]. destruct (step i c) as [c'|] eqn:E; cbn; [|now apply IH].
  destruct (step_unfold i c c' E) as (t & t' & Ht & Hs & Hth).
  destruct (step_thread_frame _ _ _ _ _ _ _ _ Hs) as (Hr & _ & Hfr).
  rewrite IH.
  - apply Hfr. specialize (Hc i t Ht). congruence.
  - intros j tj Hj. rewrite Hth in Hj.
    apply lookup_update in Hj as [[-> ->] | [_ Hj]]; [|eauto].
    unfold id_of. rewrite Hr. apply (Hc i t Ht).
Qed.

Lemma start_threads (w : world) (calls : list (request * Z)) (i : nat) (t : thread) :
  threads (start w calls) !! i = Some t ->
  exists call, calls !! i = Some call /\ t = new_thread call.
Proof.
  cbn. change (map new_thread calls) with (new_thread <$> calls).
  rewrite list_lookup_fmap. destruct (calls !! i) as [call|]; [|discriminate].
  intros [= <-]. eauto.
Qed.

(** *** Start calls only *)

Lemma start_call_step (i : nat) (c c' : config) :
  (forall j t, threads c !! j = Some t -> start_call_ok (shared c) t) ->
  step i c = Some c' ->
  forall j t, threads c' !! j = Some t -> start_call_ok (shared c') t.
Proof.
  intros Hok Hstep.
  destruct (step_unfold i c c' Hstep) as (t & t' & Ht & Hs & Hth).
  destruct c' as [w' ths' g' n']. cbn in Hs, Hth |- *. subst ths'. clear Hstep.
  destruct (Hok i t Ht) as [St Pt0].
  assert (Hkeep : forall id, is_Some (_state (shared c) !! id) ->
                             is_Some (_state w' !! id)).
  { unfold step_thread in Hs.
    destruct (th_pc t) eqn:Pt; mstep_in Hs; try discriminate; try contradiction;
      try match type of Hs with context [_log ?a ?b ?d ?e ?f ?x] =>
        destruct (_log_frame a b d e f x) as (F1 & _);
        destruct (_log a b d e f x) as [[[]|e0|] w2]; cbn in F1
      end;
      repeat match type of Hs with
      | context [if ?b then _ else _] => destruct b eqn:?
      | context [match ?x with Some _ => _ | None => _ end] => destruct x eqn:?
      end;
      simplify_eq; cbn; intros id Hid; rewrite ?F1; auto.
    destruct (decide (id = id_of t)) as [-> | Hne];
      [rewrite lookup_insert_eq | rewrite lookup_insert_ne by congruence]; eauto. }
  intros j tj Hj.
  apply lookup_update in Hj as [[-> ->] | [_ Hj]].
  - clear Hkeep. unfold start_call_ok. unfold step_thread in Hs.
    destruct (th_pc t) eqn:Pt; mstep_in Hs; try discriminate; try contradiction;
      try match type of Hs with context [_log ?a ?b ?d ?e ?f ?x] =>
        destruct (_log_frame a b d e f x) as (F1 & _);
        destruct (_log a b d e f x) as [[[]|e0|] w2]; cbn in F1
      end;
      repeat match type of Hs with
      | context [if ?b then _ else _] => destruct b eqn:?
      | context [match ?x with Some _ => _ | None => _ end] => destruct x eqn:?
      end;
      simplify_eq; cbn in *; rewrite ?St in *; cbn in *; try discriminate;
      (split; [first [exact St | reflexivity]|]); try discriminate;
      rewrite ?F1; auto.
    intros _. unfold id_of. cbn. rewrite lookup_insert_eq. eauto.
  - destruct (Hok j tj Hj) as [Sj Pj]. split; [exact Sj|].
    destruct (th_pc tj); auto.
Qed.

Lemma start_call_exec (sched : list action) : forall c,
  (forall j t, threads c !! j = Some t -> start_call_ok (shared c) t) ->
  forall j t, threads (exec sched c) !! j = Some t ->
              start_call_ok (shared (exec sched c)) t.
Proof.
  induction sched as [|a sched IH]; intros c Hc; [exact Hc|].
  change (exec (a :: sched) c) with (exec sched (do_action a c)).
  apply IH. destruct a as [i | r].
  - cbn [do_action]. destruct (step i c) as [c'|] eqn:E; cbn; [|exact Hc].
    now apply (start_call_step i c c').
  - exact Hc.
Qed.

End ScheduleFacts.

(** X13: concurrent calls cannot get stuck.  From a free lock and under any
    schedule, as long as some call has not finished, some thread can take
    its next statement: a thread waits only for a lock whose holder can go
    on. *)
Theorem X13_no_deadlock (w : world) (calls : list (request * Z))
    (sched : list Threads.action) :
  _lock w = false ->
  let c := Threads.exec sched (Threads.start w calls) in
  (exists i t, Threads.threads c !! i = Some t /\
               finished (Threads.th_pc t) = false) ->
  exists j c', Threads.step j c = Some c'.
Proof.
  intros Hl c (i & t & Ht & Hf).
  assert (Hinv : Threads.inv c) by (apply inv_exec, inv_start, Hl).
  destruct Hinv as [HL _].
  destruct (_lock (Threads.shared c)) eqn:El.
  - destruct (Threads.inv_held c HL El) as (j & tj & Hj & Cj).
    exists j. apply (step_of_thread j c tj Hj).
    apply thread_can_step; [now apply critical_not_finished|].
    intros ct E. rewrite E in Cj. discriminate.
  - exists i. apply (step_of_thread i c t Ht).
    apply thread_can_step; auto.
Qed.

Lemma X13_no_deadlock_witness :
  exists j c',
    Threads.step j
      (Threads.exec (firstn 8 Sample.schedule)
         (Threads.start (Sample.active Sample.ok_dict) Sample.calls)) = Some c'.
Proof.
  apply (X13_no_deadlock (Sample.active Sample.ok_dict) Sample.calls
           (firstn 8 Sample.schedule) eq_refl).
  exists 0%nat. eexists. split; [vm_compute; reflexivity | reflexivity].
Defined.

(** X14: the lock does not stay behind.  From a free lock and under any
    schedule, once every call has returned or raised, the lock is free. *)
Theorem X14_lock_free_at_end (w : world) (calls : list (request * Z))
    (sched : list Threads.action) :
  _lock w = false ->
  let c := Threads.exec sched (Threads.start w calls) in
  (forall i t, Threads.threads c !! i = Some t ->
               finished (Threads.th_pc t) = true) ->
  _lock (Threads.shared c) = false.
Proof.
  intros Hl c Hall.
  assert (Hinv : Threads.inv c) by (apply inv_exec, inv_start, Hl).
  destruct Hinv as [HL _].
  destruct (_lock (Threads.shared c)) eqn:El; [|reflexivity].
  destruct (Threads.inv_held c HL El) as (j & tj & Hj & Cj).
  apply critical_not_finished in Cj. rewrite (Hall j tj Hj) in Cj. discriminate.
Qed.

Lemma X14_lock_free_at_end_witness :
  _lock (Threads.shared
           (Threads.exec Sample.schedule
              (Threads.start (Sample.active Sample.ok_dict) Sample.calls))) = false.
Proof.
  apply (X14_lock_free_at_end (Sample.active Sample.ok_dict) Sample.calls
           Sample.schedule eq_refl).
  intros [|[|[|i]]] t H; vm_compute in H; try discriminate;
    injection H as <-; reflexivity.
Defined.

(** X15: under any schedule and from any world, concurrent calls change no
    table entry but those of their own requests: the entry of a request id
    that none of the calls is for is the same at every moment. *)
Theorem X15_other_entries_untouched (id : Z) (w : world)
    (calls : list (request * Z)) (sched : list Threads.action) :
  Forall (fun call => ITicket_id (fst call) <> id) calls ->
  _state (Threads.shared (Threads.exec sched (Threads.start w calls))) !! id =
  _state w !! id.
Proof.
  intros Hall. rewrite (exec_frame id); [reflexivity|].
  intros i t Ht. apply start_threads in Ht as (call & Hc & ->).
  rewrite Forall_forall in Hall. apply Hall.
  eapply list_elem_of_lookup_2; eauto.
Qed.

Lemma X15_other_entries_untouched_witness :
  _state (Threads.shared
            (Threads.exec Sample.schedule
               (Threads.start (with_state (insert 9 50%float)
                                 (Sample.active Sample.ok_dict)) Sample.calls))) !! 9 =
  _state (with_state (insert 9 50%float) (Sample.active Sample.ok_dict)) !! 9.
Proof.
  apply (X15_other_entries_untouched 9
           (with_state (insert 9 50%float) (Sample.active Sample.ok_dict))
           Sample.calls Sample.schedule).
  repeat constructor; vm_compute; discriminate.
Defined.

(** X16: concurrent start calls lose no insert.  When all running calls
    are start calls, then under any schedule and from any world every
    thread that is past its store, and so every thread that has finished,
    has an entry for its request in the table. *)
Theorem X16_no_lost_insert (w : world) (calls : list (request * Z))
    (sched : list Threads.action) :
  Forall (fun call => snd call = 0) calls ->
  let c := Threads.exec sched (Threads.start w calls) in
  forall i t, Threads.threads c !! i = Some t ->
    past_store (Threads.th_pc t) = true ->
    is_Some (_state (Threads.shared c) !! Threads.id_of t).
Proof.
  intros Hall c i t Ht Hp.
  assert (Hok : start_call_ok (Threads.shared c) t).
  { apply (start_call_exec sched (Threads.start w calls)) with (j := i); [|exact Ht].
    intros j tj Hj. apply start_threads in Hj as (call & Hc & ->).
    split; [|discriminate].
    rewrite Forall_forall in Hall. apply Hall.
    eapply list_elem_of_lookup_2; eauto. }
  destruct Hok as [_ Hm]. destruct (Threads.th_pc t); try discriminate; auto.
Qed.

Lemma X16_no_lost_insert_witness :
  is_Some
    (_state (Threads.shared
               (Threads.exec Sample.schedule
                  (Threads.start (Sample.active Sample.ok_dict)
                     [(Sample.req, 0); (Sample.other_req, 0)]))) !! 7).
Proof.
  apply (X16_no_lost_insert (Sample.active Sample.ok_dict)
           [(Sample.req, 0); (Sample.other_req, 0)] Sample.schedule
           ltac:(repeat constructor) 0%nat
           {| Threads.th_request := Sample.req; Threads.th_status := 0;
              Threads.th_pc := Threads.Returned; Threads.th_source := None |});
    [vm_compute; reflexivity | reflexivity].
Defined.

(** ** The request time as it is written *)



(** ** A kind that is not one character *)

(** X18: [_log] needs a kind of exactly one character.  With an empty kind
    or one of two or more characters the [%c] conversion raises [TypeError]
    while the line is built, so nothing reaches the sink, whatever the sink
    is. *)
Theorem X18_kind_must_be_one_character (type : string) (status id : Z) (rt : float)
    (info : string) (w : world) :
  String.length type <> 1%nat ->
  _log type status id (VFloat rt) info w =
  (Raise (TypeError "%c requires int or char"), w).
Proof.
  intros Hlen. unfold _log. mstep.
  assert (E : forall ts, log_string ts type status id (VFloat rt) info =
                         Err (TypeError "%c requires int or char")).
  { intros ts. unfold log_string, PyFormat.format. rewrite parse_log_format.
    cbn [rbind PyFormat.render Ascii.eqb Bool.eqb].
    rewrite !convert_s, !convert_d, (convert_f _ (VFloat rt)) by eauto.
    cbn [rbind].
    assert (C : PyFormat.convert 0 None "c" (VStr type) =
                Err (TypeError "%c requires int or char")).
    { destruct type as [|a [|b r]]; [reflexivity | now contradiction Hlen | reflexivity]. }
    rewrite C. reflexivity. }
  rewrite E. reflexivity.
Qed.

Lemma X18_kind_must_be_one_character_witness :
  _log "restart" 0 0 (VFloat 0) "restarted" (Sample.active Sample.ok_dict) =
  (Raise (TypeError "%c requires int or char"),
   Sample.active Sample.ok_dict).
Proof.
  apply (X18_kind_must_be_one_character "restart" 0 0 0%float "restarted"
           (Sample.active Sample.ok_dict)).
  vm_compute. lia.
Defined.

(** ** The number of open requests *)

Lemma account_request_state (rq : request) (status : Z) (w : world) :
  _lock w = false ->
  _state (snd (account_request rq status w)) =
  if status =? 0 then <[ITicket_id rq := Clock.time (clock w)]> (_state w)
  else delete (ITicket_id rq) (_state w).
Proof.
  intros Hl. destruct (Z.eq_dec status 0) as [-> | Hs].
  - rewrite account_request_start by exact Hl.
    match goal with |- _state (snd (_log ?a ?b ?d ?e ?f ?x)) = _ =>
      destruct (_log_frame a b d e f x) as (H & _); rewrite H end.
    reflexivity.
  - destruct (status =? 0) eqn:E; [apply Z.eqb_eq in E; contradiction|].
    destruct (_state w !! ITicket_id rq) as [t0|] eqn:El.
    + rewrite (account_request_end rq status t0) by assumption.
      match goal with |- _state (snd (_log ?a ?b ?d ?e ?f ?x)) = _ =>
        destruct (_log_frame a b d e f x) as (H & _); rewrite H end.
      reflexivity.
    + rewrite account_request_miss by assumption. cbn.
      symmetry. now apply delete_id.
Qed.

(** X19: the size of the table counts the open requests.  A start call
    for a request without an entry adds one entry and a start call for an
    open request adds none; a terminal call for an open request removes
    one entry and a terminal call without an entry removes none. *)
Theorem X19_table_size (rq : request) (status : Z) (w : world) :
  _lock w = false ->
  size (_state (snd (account_request rq status w))) =
  match status =? 0, _state w !! ITicket_id rq with
  | true, None => S (size (_state w))
  | false, Some _ => pred (size (_state w))
  | _, _ => size (_state w)
  end.
Proof.
  intros Hl. rewrite account_request_state by exact Hl.
  destruct (status =? 0); destruct (_state w !! ITicket_id rq) as [t0|] eqn:E.
  - now rewrite (map_size_insert_Some _ _ _ (mk_is_Some _ _ E)).
  - now rewrite map_size_insert_None.
  - now rewrite (map_size_delete_Some _ _ (mk_is_Some _ _ E)).
  - now rewrite map_size_delete_None.
Qed.

Lemma X19_table_size_witness :
  size (_state (snd (account_request Sample.req 200 (Sample.serving Sample.ok_dict)))) =
  pred (size (_state (Sample.serving Sample.ok_dict))).
Proof.
  apply (X19_table_size Sample.req 200 (Sample.serving Sample.ok_dict)).
  reflexivity.
Defined.
